(** * Pixel adjustment of [src/components/ImageProcessor.tsx]

    A shallow embedding of the preset catalog, of [clamp],
    [adjustSaturation] and [applyFilters], and of the preset lookup
    [currentPreset].

    - A JavaScript [number] is an IEEE-754 binary64 value: the primitive
      type [float], whose operations the kernel evaluates and whose
      meaning is given by [Prim2SF] and the [SpecFloat] operations.
    - [ImageData.data] is a [Uint8ClampedArray]: a fixed-length array of
      integers in 0..255, here a [list Z] read with [!!] and written with
      [<[i:=v]>].  A read past the end gives [undefined] (here [None]), a
      write past the end is ignored, and every store converts the number
      with [ToUint8Clamp]. *)

From Stdlib Require Import ZArith Floats Uint63 List Lia ZifyNat Bool.
From Stdlib Require Import QArith Qabs Qminmax Qround Lqa.
From stdpp Require Import base list strings.
From Equations Require Import Equations.
Import ListNotations.

Set Warnings "-inexact-float".
Local Open Scope Z_scope.

(** ** JavaScript numbers *)

Module JS.

Abbreviation number := float.

(** An integer element of a typed array, as a number. *)
Definition of_byte (b : Z) : number := of_uint63 (Uint63.of_Z b).

(** [ToNumber] of an array read: [undefined] becomes NaN. *)
Definition ToNumber (v : option Z) : number :=
  match v with
  | Some b => of_byte b
  | None => nan
  end.

(** [Math.max(x, y)]: NaN if either is NaN, and +0 is larger than -0. *)
Definition Math_max (x y : number) : number :=
  if is_nan x || is_nan y then nan
  else if (x <? y)%float then y
  else if (y <? x)%float then x
  else if get_sign x then y else x.

(** [Math.min(x, y)]: NaN if either is NaN, and -0 is smaller than +0. *)
Definition Math_min (x y : number) : number :=
  if is_nan x || is_nan y then nan
  else if (x <? y)%float then x
  else if (y <? x)%float then y
  else if get_sign x then x else y.

(** [x === y] on numbers. *)
Definition strict_eq (x y : number) : bool := (x =? y)%float.

(** The mathematical value of a finite number, exactly: [m * 2^e]. *)
Definition mv (x : number) : option Q :=
  match Prim2SF x with
  | S754_zero _ => Some 0%Q
  | S754_finite s m e =>
      let q := if 0 <=? e then (Z.pos m * 2 ^ e) # 1
               else Z.pos m # Z.to_pos (2 ^ (- e)) in
      Some (if s then Qopp q else q)
  | _ => None
  end.

(** Steps 5 to 8 of [ToUint8Clamp]: with [f] the floor of [clamped],
    the result is [f] below [f + 0.5], [f + 1] above, and the even one
    of the two at [f + 0.5]. *)
Definition round_ties_even (clamped : Q) : Z :=
  let f := Qfloor clamped in
  let half := (inject_Z f + (1 # 2))%Q in
  if Qle_bool half clamped then
    if Qle_bool clamped half
    then (if Z.even f then f else f + 1)
    else f + 1
  else f.

(** [ToUint8Clamp], the conversion of every store into a
    [Uint8ClampedArray] (ECMAScript): NaN gives 0; the
    mathematical value, which may be infinite, is clamped between 0 and
    255 and then rounded. *)
Definition ToUint8Clamp (v : number) : Z :=
  match Prim2SF v with
  | S754_nan => 0
  | S754_infinity s => if s then 0 else 255
  | _ =>
      match mv v with
      | None => 0
      | Some q => round_ties_even (Qmin (Qmax q 0) (255 # 1))
      end
  end.

End JS.

Import JS.

(** ** The presets *)

Record FilterPreset := {
  name : string;
  description : string;
  brightness : number;
  contrast : number;
  warmth : number;
  saturation : number;
}.

Definition filterPresets : list FilterPreset := [
  {| name := "Auto Enhance";
     description := "Balanced boost for clarity and detail.";
     brightness := 1.05;
     contrast := 1.1;
     warmth := 0.02;
     saturation := 1.08 |};
  {| name := "Golden Hour";
     description := "Warm cinematic tones with soft highlights.";
     brightness := 1.08;
     contrast := 1.05;
     warmth := 0.08;
     saturation := 1.12 |};
  {| name := "Cool Studio";
     description := "Clean, modern tones with crisp shadows.";
     brightness := 1.02;
     contrast := 1.12;
     warmth := -0.06;
     saturation := 1.04 |};
  {| name := "Vintage Film";
     description := "Muted palette with gentle contrast.";
     brightness := 1.03;
     contrast := 0.92;
     warmth := 0.03;
     saturation := 0.9 |}
].

(** ** The transform *)

Definition clamp (value : number) : number :=
  Math_min 255 (Math_max 0 value).

Definition adjustSaturation (r g b saturation : number)
  : number * number * number :=
  let gray := (0.3 * r + 0.59 * g + 0.11 * b)%float in
  (clamp (gray + (r - gray) * saturation)%float,
   clamp (gray + (g - gray) * saturation)%float,
   clamp (gray + (b - gray) * saturation)%float).

(** The contrast factor, the constant computed before the loop. *)
Definition contrast_factor (contrast : number) : number :=
  ((259 * (contrast * 255 + 255)) / (255 * (259 - contrast * 255)))%float.

(** One iteration of the loop of [applyFilters], at index [i]. *)
Definition applyFilters_body (preset : FilterPreset) (factor : number)
    (i : nat) (data : list Z) : list Z :=
  let r := ToNumber (data !! i) in
  let g := ToNumber (data !! (i + 1)%nat) in
  let b := ToNumber (data !! (i + 2)%nat) in
  let adjustedR := (factor * (r - 128) + 128)%float in
  let adjustedG := (factor * (g - 128) + 128)%float in
  let adjustedB := (factor * (b - 128) + 128)%float in
  let adjustedR := (adjustedR * (brightness preset + warmth preset))%float in
  let adjustedG := (adjustedG * brightness preset)%float in
  let adjustedB := (adjustedB * (brightness preset - warmth preset))%float in
  let '(satR, satG, satB) :=
    adjustSaturation adjustedR adjustedG adjustedB (saturation preset) in
  let data := <[i := ToUint8Clamp satR]> data in
  let data := <[(i + 1)%nat := ToUint8Clamp satG]> data in
  <[(i + 2)%nat := ToUint8Clamp satB]> data.

(** [for (let i = 0; i < data.length; i += 4) { ... }]: the array keeps its
    length, so the distance from [i] to the end decreases. *)
Equations? applyFilters_loop (preset : FilterPreset) (factor : number)
    (i : nat) (data : list Z) : list Z
    by wf (length data - i)%nat lt :=
  applyFilters_loop preset factor i data with lt_dec i (length data) => {
    | left _ =>
        applyFilters_loop preset factor (i + 4)%nat
          (applyFilters_body preset factor i data);
    | right _ => data }.
Proof.
  unfold applyFilters_body.
  destruct (adjustSaturation _ _ _ _) as [[satR satG] satB].
  rewrite !length_insert. lia.
Qed.

Record ImageData := {
  width : nat;
  height : nat;
  data : list Z;
}.

Definition applyFilters (imageData : ImageData) (preset : FilterPreset)
  : ImageData :=
  let factor := contrast_factor (contrast preset) in
  {| width := width imageData;
     height := height imageData;
     data := applyFilters_loop preset factor 0 (data imageData) |}.

(** ** Preset selection *)

(** [filterPresets.find((preset) => preset.name === presetName) ??
    filterPresets[0]]; [None] stands for [undefined]. *)
Definition currentPreset (presetName : string) : option FilterPreset :=
  match find (fun preset => String.eqb (name preset) presetName) filterPresets with
  | Some preset => Some preset
  | None => filterPresets !! 0%nat
  end.

(** ** The intermediate values of one iteration *)

Definition triple : Type := number * number * number.

Definition channel (c : nat) (t : triple) : number :=
  match c with
  | 0%nat => t.1.1
  | 1%nat => t.1.2
  | _ => t.2
  end.

(** [adjustedR], [adjustedG], [adjustedB] after the contrast remap. *)
Definition remapped (factor : number) (data : list Z) (i : nat) : triple :=
  let r := ToNumber (data !! i) in
  let g := ToNumber (data !! (i + 1)%nat) in
  let b := ToNumber (data !! (i + 2)%nat) in
  ((factor * (r - 128) + 128)%float,
   (factor * (g - 128) + 128)%float,
   (factor * (b - 128) + 128)%float).

(** [adjustedR], [adjustedG], [adjustedB] after the brightness and warmth
    scaling: the arguments of [adjustSaturation]. *)
Definition adjusted (preset : FilterPreset) (factor : number)
    (data : list Z) (i : nat) : triple :=
  let '(adjustedR, adjustedG, adjustedB) := remapped factor data i in
  ((adjustedR * (brightness preset + warmth preset))%float,
   (adjustedG * brightness preset)%float,
   (adjustedB * (brightness preset - warmth preset))%float).

(** [gray] of [adjustSaturation]. *)
Definition luminance (t : triple) : number :=
  (0.3 * channel 0 t + 0.59 * channel 1 t + 0.11 * channel 2 t)%float.

(** The argument of [clamp] in [adjustSaturation], for channel [c]. *)
Definition blend (t : triple) (saturation : number) (c : nat) : number :=
  (luminance t + (channel c t - luminance t) * saturation)%float.

(** [satR], [satG], [satB]: what the iteration at [i] hands to the store. *)
Definition saturated (preset : FilterPreset) (factor : number)
    (data : list Z) (i : nat) : triple :=
  let '(adjustedR, adjustedG, adjustedB) := adjusted preset factor data i in
  adjustSaturation adjustedR adjustedG adjustedB (saturation preset).

(** What the loop started at [i] leaves at offset [k]. *)
Definition loop_result (preset : FilterPreset) (factor : number)
    (i : nat) (data : list Z) (k : nat) : option Z :=
  if decide (i <= k /\ k < length data /\ ((k - i) mod 4 <> 3))%nat
  then Some (ToUint8Clamp
               (channel ((k - i) mod 4)
                  (saturated preset factor data (k - (k - i) mod 4))))
  else data !! k.

(** The preset with another warmth. *)
Definition with_warmth (preset : FilterPreset) (w : number) : FilterPreset :=
  {| name := name preset;
     description := description preset;
     brightness := brightness preset;
     contrast := contrast preset;
     warmth := w;
     saturation := saturation preset |}.

(** ** The specification, in its own words *)

Module Spec.

(** factor = (259 x (contrast x 255 + 255)) / (255 x (259 - contrast x 255)) *)
Definition factor (contrast : number) : number :=
  ((259 * (contrast * 255 + 255)) / (255 * (259 - contrast * 255)))%float.

(** value' = factor x (value - 128) + 128 *)
Definition contrast_remap (factor value : number) : number :=
  (factor * (value - 128) + 128)%float.

(** R'' = R' x (brightness + warmth), G'' = G' x brightness,
    B'' = B' x (brightness - warmth) *)
Definition scale (brightness warmth : number) (t : triple) : triple :=
  let '(R', G', B') := t in
  ((R' * (brightness + warmth))%float,
   (G' * brightness)%float,
   (B' * (brightness - warmth))%float).

(** gray = 0.30 x R'' + 0.59 x G'' + 0.11 x B'' *)
Definition gray (t : triple) : number :=
  let '(R'', G'', B'') := t in
  (0.30 * R'' + 0.59 * G'' + 0.11 * B'')%float.

(** channel_out = clamp(gray + (channel'' - gray) x saturation) *)
Definition saturation_blend (saturation : number) (t : triple) : triple :=
  let g := gray t in
  let '(R'', G'', B'') := t in
  (clamp (g + (R'' - g) * saturation)%float,
   clamp (g + (G'' - g) * saturation)%float,
   clamp (g + (B'' - g) * saturation)%float).

(** The three steps, in order, on one pixel. *)
Definition pixel (preset : FilterPreset) (R G B : number) : triple :=
  let f := factor (contrast preset) in
  let t' := (contrast_remap f R, contrast_remap f G, contrast_remap f B) in
  let t'' := scale (brightness preset) (warmth preset) t' in
  saturation_blend (saturation preset) t''.

(** A variant that would clamp after every step, for comparison. *)
Definition pixel_clamping_each_step (preset : FilterPreset)
    (R G B : number) : triple :=
  let f := factor (contrast preset) in
  let t' := (clamp (contrast_remap f R), clamp (contrast_remap f G),
             clamp (contrast_remap f B)) in
  let '(R'', G'', B'') :=
    scale (brightness preset) (warmth preset) t' in
  saturation_blend (saturation preset) (clamp R'', clamp G'', clamp B'').

(** The table of section 4.2: name, description, brightness, contrast,
    warmth, saturation. *)
Definition catalog : list (string * string * (Q * Q * Q * Q)) := [
  ("Auto Enhance", "Balanced boost for clarity and detail.",
    (1.05, 1.10, 0.02, 1.08)%Q);
  ("Golden Hour", "Warm cinematic tones with soft highlights.",
    (1.08, 1.05, 0.08, 1.12)%Q);
  ("Cool Studio", "Clean, modern tones with crisp shadows.",
    (1.02, 1.12, -0.06, 1.04)%Q);
  ("Vintage Film", "Muted palette with gentle contrast.",
    (1.03, 0.92, 0.03, 0.90)%Q)
].

(** The number written as the decimal [q] in the table: numerator and
    denominator are exact and the division rounds to nearest, so this is
    the number nearest to [q]. *)
Definition to_number (q : Q) : number :=
  let d := of_uint63 (Uint63.of_Z (Z.pos (Qden q))) in
  if Qnum q <? 0
  then (- (of_uint63 (Uint63.of_Z (- Qnum q)) / d))%float
  else (of_uint63 (Uint63.of_Z (Qnum q)) / d)%float.

Definition preset_of_entry (e : string * string * (Q * Q * Q * Q))
  : FilterPreset :=
  let '(n, d, (b, c, w, s)) := e in
  {| name := n; description := d;
     brightness := to_number b; contrast := to_number c;
     warmth := to_number w; saturation := to_number s |}.

(** [x] is [q] up to the rounding of a binary64 number. *)
Definition rounds_to (q : Q) (x : number) : Prop :=
  exists q', mv x = Some q' /\ (Qabs (q' - q) <= Qabs q * (1 # 2 ^ 53))%Q.

Definition close_to_entry (e : string * string * (Q * Q * Q * Q))
    (p : FilterPreset) : Prop :=
  let '(_, _, (b, c, w, s)) := e in
  rounds_to b (brightness p) /\ rounds_to c (contrast p) /\
  rounds_to w (warmth p) /\ rounds_to s (saturation p).

(** [x] is the integer nearest to [q], the even one at a tie. *)
Definition nearest_ties_even (q : Q) (x : Z) : Prop :=
  (Qabs (q - inject_Z x) <= 1 # 2)%Q /\
  (Qabs (q - inject_Z x) == 1 # 2 -> Z.even x = true)%Q.

(** Section 8, grayscale invariance under saturation 0, for every
    pixel and every preset. *)
Definition grayscale_at_zero_saturation : Prop :=
  forall imageData preset (j : nat),
    strict_eq (saturation preset) 0 = true ->
    (4 * j + 2 < length (data imageData))%nat ->
    let t := adjusted preset (contrast_factor (contrast preset))
               (data imageData) (4 * j) in
    let y := ToUint8Clamp (clamp (gray t)) in
    data (applyFilters imageData preset) !! (4 * j)%nat = Some y /\
    data (applyFilters imageData preset) !! (4 * j + 1)%nat = Some y /\
    data (applyFilters imageData preset) !! (4 * j + 2)%nat = Some y.

(** [x], rounded to one decimal, reads [q]. *)
Definition reads_to_one_decimal (x : number) (q : Q) : Prop :=
  exists q', mv x = Some q' /\ (Qabs (q' - q) <= 0.05)%Q.

End Spec.

(** ** Checks by enumeration of the 256 byte values *)

Definition bytes : list Z := map Z.of_nat (seq 0 256).

(** With factor 1, brightness 1, saturation 1 and warmth [w], the
    iteration stores [v] three times for the gray pixel [v]. *)
Definition gray_fixed_check (w : number) (v : Z) : bool :=
  let r := of_byte v in
  let t := adjustSaturation
             ((1 * (r - 128) + 128) * (1 + w))%float
             ((1 * (r - 128) + 128) * 1)%float
             ((1 * (r - 128) + 128) * (1 - w))%float
             1%float in
  forallb (fun c => ToUint8Clamp (channel c t) =? v) [0; 1; 2]%nat.

(** ** Inputs used below *)

Module Inputs.

Definition one_pixel (r g b a : Z) : ImageData :=
  {| width := 1; height := 1; data := [r; g; b; a] |}.

Definition auto_enhance : FilterPreset :=
  {| name := "Auto Enhance";
     description := "Balanced boost for clarity and detail.";
     brightness := 1.05; contrast := 1.1; warmth := 0.02;
     saturation := 1.08 |}.

Definition vintage_film : FilterPreset :=
  {| name := "Vintage Film";
     description := "Muted palette with gentle contrast.";
     brightness := 1.03; contrast := 0.92; warmth := 0.03;
     saturation := 0.9 |}.

(** Brightness 1, contrast 0 (whose factor is 1), warmth 0,
    saturation 1. *)
Definition neutral : FilterPreset :=
  {| name := "Neutral"; description := "";
     brightness := 1; contrast := 0; warmth := 0; saturation := 1 |}.

(** Saturation 0 with moderate parameters. *)
Definition grayscale : FilterPreset :=
  {| name := "Grayscale"; description := "";
     brightness := 1.03; contrast := 0.92; warmth := 0.03;
     saturation := 0 |}.

(** Saturation 0 with finite parameters large enough for a difference
    of two finite numbers to overflow. *)
Definition overflowing : FilterPreset :=
  {| name := "Overflowing"; description := "";
     brightness := 6e305; contrast := 0; warmth := -1.2e306;
     saturation := 0 |}.

End Inputs.

(** ** Further definitions: the remap of one byte, and more inputs *)

(** The contrast remap of lines 70 to 72 on the byte [v]. *)
Definition remap_byte (factor : number) (v : Z) : number :=
  (factor * (of_byte v - 128) + 128)%float.

(** On the bytes, the remap with [factor] reverses the order (for
    [reversing = true]) or keeps it. *)
Definition remap_order_check (reversing : bool) (factor : number) : bool :=
  forallb (fun u =>
    forallb (fun v =>
      if u <? v
      then if reversing
           then (remap_byte factor v <? remap_byte factor u)%float
           else (remap_byte factor u <? remap_byte factor v)%float
      else true) bytes) bytes.

Module MoreInputs.

(** A finite contrast whose product with 255 is exactly 259. *)
Definition singular : FilterPreset :=
  {| name := "Singular"; description := "";
     brightness := 1; contrast := 1.0156862745098039; warmth := 0;
     saturation := 1 |}.

(** A preset whose warmth is not a number. *)
Definition undefined_warmth : FilterPreset :=
  {| name := "Undefined warmth"; description := "";
     brightness := 1.05; contrast := 1.1; warmth := nan;
     saturation := 1.08 |}.

(** Auto Enhance without warmth. *)
Definition no_warmth : FilterPreset :=
  {| name := "No warmth"; description := "";
     brightness := 1.05; contrast := 1.1; warmth := 0;
     saturation := 1.08 |}.

End MoreInputs.

(** ** The component [ImageProcessor]

    The component as a transition system.  Its state is the six [useState]
    cells and [canvasRef.current], together with what the handlers have
    started and not yet finished: the callbacks given to [setTimeout], the
    images loading for [handleReset], and the downloads triggered.  What
    the platform supplies (the text read from the file, the decoded image,
    whether [getContext("2d")] gives a context, the encoding of the canvas)
    comes with the events.  [drawImage], [getImageData] and [putImageData]
    are taken to copy the bytes as they are. *)

Module UI.

(** The [<canvas>] element: its size and its bitmap. *)
Record Canvas := {
  canvas_width : nat;
  canvas_height : nat;
  canvas_data : list Z;
}.

Record State := {
  sourceUrl : option string;
  processedUrl : option string;
  presetName : string;
  prompt : string;
  statusMessage : string;
  isProcessing : bool;
  canvasRef : option Canvas;
  timeouts : list string;
  resets : nat;
  downloads : list (string * string);
}.

(** [url] is truthy: neither [null] nor the empty string. *)
Definition truthy (url : option string) : bool :=
  match url with
  | Some s => negb (String.eqb s "")
  | None => false
  end.

(** A canvas just created, or just resized: transparent black. *)
Definition cleared (w h : nat) : Canvas :=
  {| canvas_width := w; canvas_height := h;
     canvas_data := repeat 0 (4 * w * h) |}.

(** The preview of the JSX: [sourceUrl ? <canvas ref={canvasRef} /> : <p>],
    rendered after every change of the state.  The ref holds the element
    while it is in the page, a new element of the default size when it
    enters the page, and [null] otherwise. *)
Definition render (st : State) : State :=
  {| sourceUrl := sourceUrl st;
     processedUrl := processedUrl st;
     presetName := presetName st;
     prompt := prompt st;
     statusMessage := statusMessage st;
     isProcessing := isProcessing st;
     canvasRef :=
       if truthy (sourceUrl st)
       then match canvasRef st with
            | Some canvas => Some canvas
            | None => Some (cleared 300 150)
            end
       else None;
     timeouts := timeouts st;
     resets := resets st;
     downloads := downloads st |}.

(** The state of the first render. *)
Definition initial : State :=
  render
    {| sourceUrl := None;
       processedUrl := None;
       presetName := match filterPresets !! 0%nat with
                     | Some preset => name preset
                     | None => ""
                     end;
       prompt := "Elevate the image with AI-assisted enhancements.";
       statusMessage := "Upload an image to begin.";
       isProcessing := false;
       canvasRef := None;
       timeouts := [];
       resets := 0;
       downloads := [] |}.

(** The canvas resized to the image and the image drawn on it. *)
Definition drawn (image : ImageData) : Canvas :=
  {| canvas_width := width image; canvas_height := height image;
     canvas_data := data image |}.

(** [handleFileChange], once the file is read ([result] is
    [reader.result?.toString()]) and the image decoded: the two [onload]
    callbacks. *)
Definition handleFileChange_onload (result : option string)
    (image : ImageData) (ctx : bool) (st : State) : State :=
  if truthy result then
    match canvasRef st with
    | None => st
    | Some _ =>
        if ctx then
          render
            {| sourceUrl := result;
               processedUrl := None;
               presetName := presetName st;
               prompt := prompt st;
               statusMessage :=
                 "Image loaded. Choose a style and apply AI enhancement.";
               isProcessing := isProcessing st;
               canvasRef := Some (drawn image);
               timeouts := timeouts st;
               resets := resets st;
               downloads := downloads st |}
        else
          {| sourceUrl := sourceUrl st;
             processedUrl := processedUrl st;
             presetName := presetName st;
             prompt := prompt st;
             statusMessage := statusMessage st;
             isProcessing := isProcessing st;
             canvasRef := Some (cleared (width image) (height image));
             timeouts := timeouts st;
             resets := resets st;
             downloads := downloads st |}
    end
  else st.

(** [handleProcess], up to the call of [setTimeout]: the callback keeps
    the [currentPreset] of this render, that is, of [presetName]. *)
Definition handleProcess (ctx : bool) (st : State) : State :=
  match canvasRef st with
  | None => st
  | Some _ =>
      if ctx then
        render
          {| sourceUrl := sourceUrl st;
             processedUrl := processedUrl st;
             presetName := presetName st;
             prompt := prompt st;
             statusMessage := "Running AI enhancement…";
             isProcessing := true;
             canvasRef := canvasRef st;
             timeouts := timeouts st ++ [presetName st];
             resets := resets st;
             downloads := downloads st |}
      else st
  end.

(** The callback of [setTimeout].  [getImageData] throws for an empty
    canvas, and the callback then ends there. *)
Definition handleProcess_timeout (toDataURL : Canvas -> string)
    (st : State) : State :=
  match timeouts st with
  | [] => st
  | selected :: pending =>
      let st' :=
        {| sourceUrl := sourceUrl st;
           processedUrl := processedUrl st;
           presetName := presetName st;
           prompt := prompt st;
           statusMessage := statusMessage st;
           isProcessing := isProcessing st;
           canvasRef := canvasRef st;
           timeouts := pending;
           resets := resets st;
           downloads := downloads st |} in
      match canvasRef st, currentPreset selected with
      | Some canvas, Some preset =>
          if (canvas_width canvas =? 0)%nat || (canvas_height canvas =? 0)%nat
          then st'
          else
            let imageData :=
              {| width := canvas_width canvas;
                 height := canvas_height canvas;
                 data := canvas_data canvas |} in
            let processed := applyFilters imageData preset in
            let canvas' :=
              {| canvas_width := canvas_width canvas;
                 canvas_height := canvas_height canvas;
                 canvas_data := data processed |} in
            render
              {| sourceUrl := sourceUrl st;
                 processedUrl := Some (toDataURL canvas');
                 presetName := presetName st;
                 prompt := prompt st;
                 statusMessage :=
                   "AI enhancement complete. Download or refine.";
                 isProcessing := false;
                 canvasRef := Some canvas';
                 timeouts := pending;
                 resets := resets st;
                 downloads := downloads st |}
      | _, _ => st'
      end
  end.

(** [handleReset], up to [image.src = sourceUrl]. *)
Definition handleReset (st : State) : State :=
  if negb (truthy (sourceUrl st)) || negb (bool_decide (is_Some (canvasRef st)))
  then st
  else
    {| sourceUrl := sourceUrl st;
       processedUrl := processedUrl st;
       presetName := presetName st;
       prompt := prompt st;
       statusMessage := statusMessage st;
       isProcessing := isProcessing st;
       canvasRef := canvasRef st;
       timeouts := timeouts st;
       resets := S (resets st);
       downloads := downloads st |}.

(** The [onload] callback of [handleReset]. *)
Definition handleReset_onload (image : ImageData) (ctx : bool)
    (st : State) : State :=
  match resets st with
  | O => st
  | S pending =>
      match canvasRef st with
      | None =>
          {| sourceUrl := sourceUrl st;
             processedUrl := processedUrl st;
             presetName := presetName st;
             prompt := prompt st;
             statusMessage := statusMessage st;
             isProcessing := isProcessing st;
             canvasRef := None;
             timeouts := timeouts st;
             resets := pending;
             downloads := downloads st |}
      | Some _ =>
          if ctx then
            render
              {| sourceUrl := sourceUrl st;
                 processedUrl := None;
                 presetName := presetName st;
                 prompt := prompt st;
                 statusMessage := "Reset complete. Try a different AI style.";
                 isProcessing := isProcessing st;
                 canvasRef := Some (drawn image);
                 timeouts := timeouts st;
                 resets := pending;
                 downloads := downloads st |}
          else
            {| sourceUrl := sourceUrl st;
               processedUrl := processedUrl st;
               presetName := presetName st;
               prompt := prompt st;
               statusMessage := statusMessage st;
               isProcessing := isProcessing st;
               canvasRef := Some (cleared (width image) (height image));
               timeouts := timeouts st;
               resets := pending;
               downloads := downloads st |}
      end
  end.

(** [handleDownload]: the link clicked, with its [href] and [download]. *)
Definition handleDownload (st : State) : State :=
  match processedUrl st with
  | Some url =>
      if String.eqb url "" then st
      else
        {| sourceUrl := sourceUrl st;
           processedUrl := processedUrl st;
           presetName := presetName st;
           prompt := prompt st;
           statusMessage := statusMessage st;
           isProcessing := isProcessing st;
           canvasRef := canvasRef st;
           timeouts := timeouts st;
           resets := resets st;
           downloads := downloads st ++ [(url, "ai-processed-image.png")] |}
  | None => st
  end.

(** [setPresetName] and [setPrompt], from the select and the textarea. *)
Definition setPresetName (value : string) (st : State) : State :=
  render
    {| sourceUrl := sourceUrl st;
       processedUrl := processedUrl st;
       presetName := value;
       prompt := prompt st;
       statusMessage := statusMessage st;
       isProcessing := isProcessing st;
       canvasRef := canvasRef st;
       timeouts := timeouts st;
       resets := resets st;
       downloads := downloads st |}.

Definition setPrompt (value : string) (st : State) : State :=
  render
    {| sourceUrl := sourceUrl st;
       processedUrl := processedUrl st;
       presetName := presetName st;
       prompt := value;
       statusMessage := statusMessage st;
       isProcessing := isProcessing st;
       canvasRef := canvasRef st;
       timeouts := timeouts st;
       resets := resets st;
       downloads := downloads st |}.

(** What can happen to the component. *)
Inductive Event :=
| FileLoaded (result : option string) (image : ImageData) (ctx : bool)
| ProcessClicked (ctx : bool)
| TimeoutFired
| ResetClicked
| ResetLoaded (image : ImageData) (ctx : bool)
| DownloadClicked
| PresetSelected (value : string)
| PromptEdited (value : string).

(** The [disabled] attributes of the three buttons. *)
Definition process_disabled (st : State) : bool :=
  negb (truthy (sourceUrl st)) || isProcessing st.

Definition reset_disabled (st : State) : bool :=
  negb (truthy (sourceUrl st)) || isProcessing st.

Definition download_disabled (st : State) : bool :=
  negb (truthy (processedUrl st)) || isProcessing st.

(** One event; a click on a disabled button does not reach its handler
    when [honour_disabled] is set, and reaches it otherwise (a click made
    by a script). *)
Definition step (toDataURL : Canvas -> string) (honour_disabled : bool)
    (st : State) (e : Event) : State :=
  match e with
  | FileLoaded result image ctx => handleFileChange_onload result image ctx st
  | ProcessClicked ctx =>
      if honour_disabled && process_disabled st then st
      else handleProcess ctx st
  | TimeoutFired => handleProcess_timeout toDataURL st
  | ResetClicked =>
      if honour_disabled && reset_disabled st then st else handleReset st
  | ResetLoaded image ctx => handleReset_onload image ctx st
  | DownloadClicked =>
      if honour_disabled && download_disabled st then st
      else handleDownload st
  | PresetSelected value => setPresetName value st
  | PromptEdited value => setPrompt value st
  end.

Definition run (toDataURL : Canvas -> string) (honour_disabled : bool)
    (st : State) (events : list Event) : State :=
  fold_left (step toDataURL honour_disabled) events st.

(** No image and nothing under way. *)
Definition idle (st : State) : Prop :=
  sourceUrl st = None /\ processedUrl st = None /\ canvasRef st = None /\
  isProcessing st = false /\
  statusMessage st = "Upload an image to begin."%string /\
  timeouts st = [] /\ resets st = 0%nat /\ downloads st = [].

End UI.

(** * Facts *)

(** Linear arithmetic with [mod 4]. *)
Ltac lia_mod := zify; Z.to_euclidean_division_equations; lia.

(** ** Numbers *)

Module NumberFacts.

(** *** Comparison of specified floats *)

Lemma SFcompare_antisym X Y :
  SFcompare Y X = option_map CompOpp (SFcompare X Y).
Proof.
  destruct X as [sx|sx| |sx mx ex], Y as [sy|sy| |sy my ey]; simpl;
    try destruct sx; try destruct sy; try reflexivity.
  all: rewrite (Z.compare_antisym ex ey); destruct (ex ?= ey); simpl;
    try reflexivity.
  all: rewrite (Pos.compare_cont_antisym _ _ Eq); simpl; try reflexivity.
  now rewrite CompOpp_involutive.
Qed.

Lemma SFcompare_Eq_finite X s m e :
  SFcompare X (S754_finite s m e) = Some Eq -> X = S754_finite s m e.
Proof.
  destruct X as [sx|sx| |sx mx ex]; simpl;
    try destruct sx; try destruct s; try discriminate.
  all: destruct (ex ?= e) eqn:He; try discriminate;
    apply Z.compare_eq in He; subst ex; intros H.
  - f_equal. apply Pos.compare_eq.
    destruct (Pos.compare_cont Eq mx m) eqn:Hm; try discriminate.
    exact Hm.
  - f_equal. now apply Pos.compare_eq; injection H.
Qed.

Lemma SFcompare_Eq_zero X s :
  SFcompare X (S754_zero s) = Some Eq -> exists s', X = S754_zero s'.
Proof.
  destruct X as [sx|sx| |sx mx ex]; simpl; try destruct sx; try discriminate;
    eauto.
Qed.

(** *** Classification *)

Lemma is_nan_spec x :
  is_nan x = match Prim2SF x with S754_nan => true | _ => false end.
Proof.
  unfold is_nan. rewrite FloatAxioms.eqb_spec. unfold SFeqb.
  destruct (Prim2SF x) as [s|s| |s m e]; simpl; try destruct s;
    try reflexivity.
  all: rewrite Z.compare_refl, Pos.compare_cont_refl; reflexivity.
Qed.

Lemma is_infinity_spec x :
  is_infinity x =
  match Prim2SF x with S754_infinity _ => true | _ => false end.
Proof.
  unfold is_infinity. rewrite FloatAxioms.eqb_spec, FloatAxioms.abs_spec.
  unfold SFeqb.
  replace (Prim2SF infinity) with (S754_infinity false) by reflexivity.
  destruct (Prim2SF x) as [s|s| |s m e]; simpl; try destruct s;
    reflexivity.
Qed.

Lemma is_finite_spec x :
  is_finite x =
  match Prim2SF x with
  | S754_zero _ | S754_finite _ _ _ => true
  | _ => false
  end.
Proof.
  unfold is_finite. rewrite is_nan_spec, is_infinity_spec.
  destruct (Prim2SF x); reflexivity.
Qed.

(** *** Strict equality *)

Lemma strict_eq_finite x y s m e :
  Prim2SF y = S754_finite s m e -> strict_eq x y = true -> x = y.
Proof.
  unfold strict_eq. rewrite FloatAxioms.eqb_spec. intros Hy H.
  apply Prim2SF_inj. rewrite Hy in *. unfold SFeqb in H.
  destruct (SFcompare _ _) as [[| |]|] eqn:Hc; try discriminate.
  exact (SFcompare_Eq_finite _ _ _ _ Hc).
Qed.

Lemma strict_eq_zero x :
  strict_eq x 0 = true -> exists s, Prim2SF x = S754_zero s.
Proof.
  unfold strict_eq. rewrite FloatAxioms.eqb_spec.
  replace (Prim2SF 0) with (S754_zero false) by reflexivity.
  unfold SFeqb. intros H.
  destruct (SFcompare _ _) as [[| |]|] eqn:Hc; try discriminate.
  exact (SFcompare_Eq_zero _ _ Hc).
Qed.

Lemma zero_cases x s : Prim2SF x = S754_zero s -> x = 0%float \/ x = (-0)%float.
Proof.
  intros H. destruct s; [right|left]; apply Prim2SF_inj; rewrite H;
    reflexivity.
Qed.

(** *** Order *)

Lemma SFcompare_None X Y :
  SFcompare X Y = None -> X = S754_nan \/ Y = S754_nan.
Proof.
  destruct X as [sx|sx| |sx mx ex], Y as [sy|sy| |sy my ey]; simpl;
    try discriminate; auto.
Qed.

Lemma ltb_leb x y : (x <? y)%float = true -> (x <=? y)%float = true.
Proof.
  rewrite FloatAxioms.ltb_spec, FloatAxioms.leb_spec. unfold SFltb, SFleb.
  destruct (SFcompare _ _) as [[| |]|]; congruence.
Qed.

Lemma not_ltb_leb x y :
  is_nan x = false -> is_nan y = false ->
  (y <? x)%float = false -> (x <=? y)%float = true.
Proof.
  rewrite !is_nan_spec, FloatAxioms.ltb_spec, FloatAxioms.leb_spec.
  unfold SFltb, SFleb. rewrite (SFcompare_antisym (Prim2SF x) (Prim2SF y)).
  intros Hx Hy.
  destruct (SFcompare (Prim2SF x) (Prim2SF y)) as [[| |]|] eqn:Hc; simpl;
    try congruence.
  destruct (SFcompare_None _ _ Hc) as [E|E]; rewrite E in *; discriminate.
Qed.

(** *** Negation, addition and subtraction *)

Lemma SFadd_opp X Y : SF64add X (SFopp Y) = SF64sub X Y.
Proof.
  destruct X as [sx|sx| |sx mx ex], Y as [sy|sy| |sy my ey]; simpl;
    try destruct sx; try destruct sy; try reflexivity.
  all: unfold SF64add, SF64sub, SFadd, SFsub; simpl; f_equal; lia.
Qed.

Lemma SFsub_opp X Y : SF64sub X (SFopp Y) = SF64add X Y.
Proof.
  destruct X as [sx|sx| |sx mx ex], Y as [sy|sy| |sy my ey]; simpl;
    try destruct sx; try destruct sy; try reflexivity.
  all: unfold SF64add, SF64sub, SFadd, SFsub; simpl; f_equal; lia.
Qed.

Lemma add_opp x y : (x + - y = x - y)%float.
Proof.
  apply Prim2SF_inj.
  now rewrite FloatAxioms.add_spec, FloatAxioms.opp_spec,
    FloatAxioms.sub_spec, SFadd_opp.
Qed.

Lemma sub_opp x y : (x - - y = x + y)%float.
Proof.
  apply Prim2SF_inj.
  now rewrite FloatAxioms.sub_spec, FloatAxioms.opp_spec,
    FloatAxioms.add_spec, SFsub_opp.
Qed.

(** *** [clamp] *)

Lemma clamp_eq v :
  clamp v =
  if is_nan v then nan
  else let m := if (0 <? v)%float then v else 0%float in
       if (255 <? m)%float then 255%float else m.
Proof.
  unfold clamp, Math_max, Math_min.
  change (is_nan 0) with false. change (is_nan 255) with false.
  change (get_sign 0) with false. change (get_sign 255) with false.
  cbn [orb].
  destruct (is_nan v) eqn:Hn; [reflexivity|].
  destruct (0 <? v)%float eqn:H0.
  - cbn zeta. rewrite Hn.
    destruct (255 <? v)%float; [reflexivity|].
    destruct (v <? 255)%float; reflexivity.
  - destruct (v <? 0)%float; reflexivity.
Qed.

Lemma clamp_nan v : is_nan v = true -> clamp v = nan.
Proof. intros H. rewrite clamp_eq, H. reflexivity. Qed.

Lemma clamp_range v :
  is_nan v = false ->
  (0 <=? clamp v)%float = true /\ (clamp v <=? 255)%float = true.
Proof.
  intros Hn. rewrite clamp_eq, Hn.
  destruct (0 <? v)%float eqn:H0; cbn zeta.
  - destruct (255 <? v)%float eqn:H255.
    + split; reflexivity.
    + split; [now apply ltb_leb|]. now apply not_ltb_leb.
  - split; reflexivity.
Qed.

(** *** Mathematical values *)

Lemma digits2_pos_bound m : Z.pos m < 2 ^ Z.pos (digits2_pos m).
Proof.
  induction m as [m IH|m IH|]; cbn [digits2_pos]; [| |reflexivity].
  all: rewrite Pos2Z.inj_succ, Z.pow_succ_r by lia; lia.
Qed.

(** A valid mantissa has at most 53 bits. *)
Lemma valid_mantissa_bound s m e :
  valid_binary (S754_finite s m e) = true -> Z.pos m < 2 ^ 53.
Proof.
  cbn [SpecFloat.valid_binary]. unfold bounded, canonical_mantissa, fexp.
  intros H. apply andb_prop in H as [H _]. apply Z.eqb_eq in H.
  pose proof (digits2_pos_bound m) as Hm.
  assert (Hd : Z.pos (digits2_pos m) <= 53) by (unfold prec in H; lia).
  eapply Z.lt_le_trans; [exact Hm|].
  apply Z.pow_le_mono_r; lia.
Qed.

(** A number between 0 and 255 for [<=?] has its value in [0, 255]. *)
Lemma leb_bounds_mv c :
  (0 <=? c)%float = true -> (c <=? 255)%float = true ->
  exists q, mv c = Some q /\ (0 <= q)%Q /\ (q <= 255 # 1)%Q.
Proof.
  rewrite !FloatAxioms.leb_spec. unfold mv.
  pose proof (Prim2SF_valid c) as Hv.
  replace (Prim2SF 0) with (S754_zero false) by reflexivity.
  replace (Prim2SF 255) with (S754_finite false 8972014882652160 (-45))
    by reflexivity.
  destruct (Prim2SF c) as [s|s| |s m e]; unfold SFleb; cbn [SFcompare].
  - intros _ _. exists 0%Q. repeat split; discriminate.
  - destruct s; discriminate.
  - discriminate.
  - destruct s; [discriminate|]. intros _ H.
    apply valid_mantissa_bound in Hv.
    assert (He : e <= -45 /\ Z.pos m <= 255 * 2 ^ (- e)).
    { destruct (Z.compare_spec e (-45)) as [E|E|E]; [| |discriminate H].
      - subst e. split; [lia|].
        change (255 * 2 ^ (- -45)) with (Z.pos 8972014882652160).
        apply Pos2Z.pos_le_pos.
        destruct (Pos.compare_cont Eq m 8972014882652160) eqn:Em;
          [| |discriminate H].
        + apply Pos.compare_eq in Em. subst m. apply Pos.le_refl.
        + apply Pos.lt_le_incl. exact Em.
      - split; [lia|].
        assert (2 ^ 46 <= 2 ^ (- e)) by (apply Z.pow_le_mono_r; lia).
        change (2 ^ 53) with (128 * 2 ^ 46) in Hv. lia. }
    destruct He as [He Hm].
    destruct (0 <=? e) eqn:E0; [apply Z.leb_le in E0; lia|].
    eexists. split; [reflexivity|].
    assert (Hp : 0 < 2 ^ (- e)) by (apply Z.pow_pos_nonneg; lia).
    unfold Qle; cbn [Qnum Qden]. rewrite Z2Pos.id by exact Hp.
    split; lia.
Qed.

(** The value of a clamped number lies in [0, 255]. *)
Lemma clamp_value v :
  is_nan v = false ->
  exists q, mv (clamp v) = Some q /\ (0 <= q)%Q /\ (q <= 255 # 1)%Q.
Proof.
  intros Hn. destruct (clamp_range v Hn) as [H0 H255].
  now apply leb_bounds_mv.
Qed.

(** *** The store conversion *)

Lemma Qclamp_bounds q :
  (0 <= Qmin (Qmax q 0) (255 # 1))%Q /\ (Qmin (Qmax q 0) (255 # 1) <= 255 # 1)%Q.
Proof.
  split; [|apply Q.le_min_r].
  apply Q.min_glb; [apply Q.le_max_r|discriminate].
Qed.

Lemma Qclamp_id q :
  (0 <= q)%Q -> (q <= 255 # 1)%Q -> (Qmin (Qmax q 0) (255 # 1) == q)%Q.
Proof.
  intros H0 H255. rewrite (Q.max_l q 0) by exact H0.
  now apply Q.min_l.
Qed.

Lemma inject_Z_succ f : (inject_Z (f + 1) == inject_Z f + 1)%Q.
Proof. rewrite inject_Z_plus. reflexivity. Qed.

Lemma round_ties_even_spec (c : Q) :
  (0 <= c)%Q -> (c <= 255 # 1)%Q ->
  0 <= round_ties_even c <= 255 /\
  Spec.nearest_ties_even c (round_ties_even c).
Proof.
  intros H0 H255. unfold round_ties_even, Spec.nearest_ties_even.
  pose proof (Qfloor_le c) as Hf. pose proof (Qlt_floor c) as Hf'.
  rewrite inject_Z_succ in Hf'.
  generalize dependent (Qfloor c). intros f Hf Hf'.
  assert (Hf0 : 0 <= f).
  { apply Z.lt_succ_r. rewrite <- Z.add_1_r. rewrite Zlt_Qlt, inject_Z_succ.
    change (inject_Z 0) with 0%Q. lra. }
  assert (Hf255 : f <= 255).
  { rewrite Zle_Qle. change (inject_Z 255) with (255 # 1)%Q. lra. }
  destruct (Qle_bool (inject_Z f + (1 # 2)) c) eqn:E1.
  - apply Qle_bool_iff in E1.
    assert (Hf254 : f <= 254).
    { apply Z.lt_succ_r. change (Z.succ 254) with 255. rewrite Zlt_Qlt.
      change (inject_Z 255) with (255 # 1)%Q. lra. }
    destruct (Qle_bool c (inject_Z f + (1 # 2))) eqn:E2.
    + apply Qle_bool_iff in E2.
      destruct (Z.even f) eqn:Ev.
      * split; [lia|]. split; [|auto].
        apply Qabs_Qle_condition. lra.
      * split; [lia|]. split.
        -- apply Qabs_Qle_condition. rewrite inject_Z_succ. lra.
        -- intros _. rewrite Z.even_add, Ev. reflexivity.
    + assert (E2' : (inject_Z f + (1 # 2) < c)%Q).
      { apply Qnot_le_lt. intros C. apply Qle_bool_iff in C. congruence. }
      split; [lia|]. split.
      * apply Qabs_Qle_condition. rewrite inject_Z_succ. lra.
      * intros Habs. exfalso. rewrite inject_Z_succ in Habs.
        rewrite Qabs_neg in Habs by lra. lra.
  - assert (E1' : (c < inject_Z f + (1 # 2))%Q).
    { apply Qnot_le_lt. intros C. apply Qle_bool_iff in C. congruence. }
    split; [lia|]. split.
    * apply Qabs_Qle_condition. lra.
    * intros Habs. exfalso. rewrite Qabs_pos in Habs by lra. lra.
Qed.

Lemma ToUint8Clamp_range v : 0 <= ToUint8Clamp v <= 255.
Proof.
  unfold ToUint8Clamp.
  destruct (Prim2SF v) as [s|s| |s m e]; try destruct s; try lia.
  all: destruct (mv v) as [q|]; [|lia].
  all: apply round_ties_even_spec; apply Qclamp_bounds.
Qed.

Lemma ToUint8Clamp_nan v : is_nan v = true -> ToUint8Clamp v = 0.
Proof.
  rewrite is_nan_spec. unfold ToUint8Clamp.
  destruct (Prim2SF v); try discriminate. reflexivity.
Qed.

Lemma ToUint8Clamp_mv v q :
  mv v = Some q ->
  ToUint8Clamp v = round_ties_even (Qmin (Qmax q 0) (255 # 1)).
Proof.
  unfold ToUint8Clamp. intros H. rewrite H.
  unfold mv in H. destruct (Prim2SF v); try discriminate; reflexivity.
Qed.

Lemma nearest_ties_even_proper q q' x :
  (q == q')%Q -> Spec.nearest_ties_even q x -> Spec.nearest_ties_even q' x.
Proof.
  unfold Spec.nearest_ties_even. intros E [H1 H2].
  rewrite <- E. auto.
Qed.

Lemma round_ties_even_proper q q' :
  (q == q')%Q -> round_ties_even q = round_ties_even q'.
Proof.
  intros E. unfold round_ties_even. rewrite (Qfloor_comp _ _ E).
  assert (B : forall a, Qle_bool a q = Qle_bool a q').
  { intros a. apply eq_true_iff_eq. rewrite !Qle_bool_iff, E. reflexivity. }
  assert (B' : forall a, Qle_bool q a = Qle_bool q' a).
  { intros a. apply eq_true_iff_eq. rewrite !Qle_bool_iff, E. reflexivity. }
  now rewrite B, B'.
Qed.

(** A value in [0, 255] is stored as the nearest integer, ties to even. *)
Lemma ToUint8Clamp_nearest v q :
  mv v = Some q -> (0 <= q)%Q -> (q <= 255 # 1)%Q ->
  Spec.nearest_ties_even q (ToUint8Clamp v).
Proof.
  intros Hv H0 H255. rewrite (ToUint8Clamp_mv v q Hv).
  rewrite (round_ties_even_proper _ q (Qclamp_id q H0 H255)).
  now apply round_ties_even_spec.
Qed.

(** *** The blend at saturation 0 *)

Lemma SFsub_finite_r X G :
  match SF64sub X G with
  | S754_zero _ | S754_finite _ _ _ => True
  | _ => False
  end ->
  match G with S754_zero _ | S754_finite _ _ _ => True | _ => False end.
Proof.
  destruct X as [sx|sx| |sx mx ex], G as [sg|sg| |sg mg eg]; cbn;
    try destruct sx; try destruct sg; auto.
Qed.

Lemma blend_zero_saturation gray x sat :
  strict_eq sat 0 = true -> is_finite (x - gray) = true ->
  clamp (gray + (x - gray) * sat) = clamp gray.
Proof.
  intros Hs Hf. destruct (strict_eq_zero sat Hs) as [ss Hss].
  rewrite is_finite_spec in Hf.
  assert (HG : match Prim2SF gray with
               | S754_zero _ | S754_finite _ _ _ => True
               | _ => False
               end).
  { apply (SFsub_finite_r (Prim2SF x)). rewrite <- FloatAxioms.sub_spec.
    destruct (Prim2SF (x - gray)); try discriminate; exact I. }
  assert (HP : exists sp, Prim2SF ((x - gray) * sat) = S754_zero sp).
  { rewrite FloatAxioms.mul_spec, Hss.
    destruct (Prim2SF (x - gray)) as [sd|sd| |sd md ed];
      try discriminate; cbn; eauto. }
  destruct HP as [sp HP].
  pose proof (FloatAxioms.add_spec gray ((x - gray) * sat)) as Hsum.
  rewrite HP in Hsum.
  destruct (Prim2SF gray) as [sg|sg| |sg mg eg] eqn:Hg; try contradiction.
  - assert (Hz : exists sz, Prim2SF (gray + (x - gray) * sat) = S754_zero sz).
    { rewrite Hsum. destruct sg, sp; cbn; eauto. }
    destruct Hz as [sz Hz].
    destruct (zero_cases _ _ Hz) as [-> | ->];
      destruct (zero_cases _ _ Hg) as [-> | ->]; reflexivity.
  - f_equal. apply Prim2SF_inj. rewrite Hsum, Hg. reflexivity.
Qed.

(** *** Enumeration of the byte values *)

Lemma forall_bytes (f : Z -> bool) :
  forallb f bytes = true -> forall v, 0 <= v <= 255 -> f v = true.
Proof.
  intros H v Hv. rewrite forallb_forall in H. apply H.
  unfold bytes. rewrite <- (Z2Nat.id v) by lia.
  apply in_map, in_seq. lia.
Qed.

Lemma gray_fixed_all :
  forallb (fun v => gray_fixed_check 0 v && gray_fixed_check (-0) v) bytes
  = true.
Proof. vm_compute. reflexivity. Qed.

End NumberFacts.

(** ** The loop, offset by offset *)

Section Loop.

Variable preset : FilterPreset.
Variable factor : number.

Lemma saturated_channel data i c :
  (c < 3)%nat ->
  channel c (saturated preset factor data i) =
  clamp (blend (adjusted preset factor data i) (saturation preset) c).
Proof.
  intros Hc. unfold saturated, blend, luminance.
  destruct (adjusted preset factor data i) as [[aR aG] aB].
  destruct c as [|[|[|c]]]; try lia; reflexivity.
Qed.

Lemma applyFilters_body_eq i data :
  applyFilters_body preset factor i data =
  <[(i + 2)%nat := ToUint8Clamp (channel 2 (saturated preset factor data i))]>
    (<[(i + 1)%nat := ToUint8Clamp (channel 1 (saturated preset factor data i))]>
      (<[i := ToUint8Clamp (channel 0 (saturated preset factor data i))]> data)).
Proof.
  unfold applyFilters_body, saturated, adjusted, remapped.
  destruct (adjustSaturation _ _ _ _) as [[satR satG] satB]. reflexivity.
Qed.

Lemma applyFilters_body_length i data :
  length (applyFilters_body preset factor i data) = length data.
Proof. rewrite applyFilters_body_eq. now rewrite !length_insert. Qed.

Lemma applyFilters_body_lookup_lt i data k :
  (k < i)%nat -> applyFilters_body preset factor i data !! k = data !! k.
Proof.
  intros Hk. rewrite applyFilters_body_eq.
  rewrite !list_lookup_insert_ne by lia. reflexivity.
Qed.

Lemma applyFilters_body_lookup_ge i data k :
  (i + 3 <= k)%nat -> applyFilters_body preset factor i data !! k = data !! k.
Proof.
  intros Hk. rewrite applyFilters_body_eq.
  rewrite !list_lookup_insert_ne by lia. reflexivity.
Qed.

Lemma applyFilters_body_lookup_chan i data c :
  (c < 3)%nat -> (i + c < length data)%nat ->
  applyFilters_body preset factor i data !! (i + c)%nat =
  Some (ToUint8Clamp (channel c (saturated preset factor data i))).
Proof.
  intros Hc Hlen. rewrite applyFilters_body_eq.
  destruct c as [|[|[|c]]]; try lia.
  - rewrite Nat.add_0_r, !list_lookup_insert_ne by lia.
    apply list_lookup_insert_eq. lia.
  - rewrite list_lookup_insert_ne by lia.
    apply list_lookup_insert_eq. rewrite length_insert. lia.
  - apply list_lookup_insert_eq. rewrite !length_insert. lia.
Qed.

(** An iteration reads only the three offsets from [i] on. *)
Lemma saturated_ext data data' i :
  (forall k, (i <= k < i + 3)%nat -> data' !! k = data !! k) ->
  saturated preset factor data' i = saturated preset factor data i.
Proof.
  intros H. unfold saturated, adjusted, remapped.
  rewrite !H by lia. reflexivity.
Qed.

Lemma applyFilters_loop_lookup i data k :
  applyFilters_loop preset factor i data !! k =
  loop_result preset factor i data k.
Proof.
  funelim (applyFilters_loop preset factor i data); [|unfold loop_result].
  - rename data0 into data.
    match goal with IH : forall k, _ !! k = loop_result _ _ _ _ k |- _ =>
      rewrite IH end.
    unfold loop_result. rewrite applyFilters_body_length.
    destruct (decide (i + 4 <= k /\ k < length data
                      /\ (k - (i + 4)) mod 4 <> 3)%nat) as [Hin|Hout].
    + rewrite decide_True by lia_mod.
      replace ((k - (i + 4)) mod 4)%nat with ((k - i) mod 4)%nat by lia_mod.
      do 3 f_equal. apply saturated_ext. intros k' Hk'.
      apply applyFilters_body_lookup_ge. lia_mod.
    + destruct (decide (i <= k /\ k < length data /\ (k - i) mod 4 <> 3)%nat)
        as [Hin'|Hout'].
      * assert (Hk : (k < i + 3)%nat) by lia_mod.
        replace ((k - i) mod 4)%nat with (k - i)%nat by lia_mod.
        replace (k - (k - i))%nat with i by lia_mod.
        replace k with (i + (k - i))%nat at 1 by lia_mod.
        apply applyFilters_body_lookup_chan; lia_mod.
      * destruct (decide (k < i)%nat).
        -- now apply applyFilters_body_lookup_lt.
        -- destruct (decide (i + 3 <= k)%nat).
           ++ now apply applyFilters_body_lookup_ge.
           ++ assert (length data <= k)%nat by lia_mod.
              rewrite !(lookup_ge_None_2 _ k); auto.
              rewrite applyFilters_body_length. lia_mod.
  - rewrite decide_False by lia_mod. reflexivity.
Qed.

Lemma applyFilters_loop_length i data :
  length (applyFilters_loop preset factor i data) = length data.
Proof.
  funelim (applyFilters_loop preset factor i data); [|reflexivity].
  match goal with IH : length _ = length _ |- _ => rewrite IH end.
  apply applyFilters_body_length.
Qed.

End Loop.

(** The whole transform at a colour offset [k = 4 j + c]. *)
Lemma applyFilters_lookup_colour imageData preset k :
  (k < length (data imageData))%nat -> (k mod 4 <> 3)%nat ->
  data (applyFilters imageData preset) !! k =
  Some (ToUint8Clamp
          (channel (k mod 4)
             (saturated preset (contrast_factor (contrast preset))
                (data imageData) (k - k mod 4)))).
Proof.
  intros Hk Hc. unfold applyFilters. cbn [data].
  rewrite applyFilters_loop_lookup. unfold loop_result.
  rewrite Nat.sub_0_r. rewrite decide_True by lia. reflexivity.
Qed.

Lemma applyFilters_lookup_other imageData preset k :
  ~ ((k < length (data imageData))%nat /\ (k mod 4 <> 3)%nat) ->
  data (applyFilters imageData preset) !! k = data imageData !! k.
Proof.
  intros Hk. unfold applyFilters. cbn [data].
  rewrite applyFilters_loop_lookup. unfold loop_result.
  rewrite Nat.sub_0_r. rewrite decide_False by lia. reflexivity.
Qed.

Lemma applyFilters_length imageData preset :
  length (data (applyFilters imageData preset)) = length (data imageData).
Proof. apply applyFilters_loop_length. Qed.

(** The code's iteration computes the specification's pixel. *)
Lemma saturated_spec preset data i r g b :
  data !! i = Some r -> data !! (i + 1)%nat = Some g ->
  data !! (i + 2)%nat = Some b ->
  saturated preset (contrast_factor (contrast preset)) data i =
  Spec.pixel preset (of_byte r) (of_byte g) (of_byte b).
Proof.
  intros Hr Hg Hb.
  unfold saturated, adjusted, remapped. rewrite Hr, Hg, Hb. reflexivity.
Qed.

(** ** Evaluations *)

(** The pixel of section 8 of the specification under Auto Enhance. *)
Example applyFilters_auto_enhance :
  data (applyFilters (Inputs.one_pixel 200 150 100 255) Inputs.auto_enhance)
  = [0; 0; 255; 255].
Proof. vm_compute. reflexivity. Qed.

Example applyFilters_two_pixels :
  data (applyFilters
          {| width := 2; height := 1;
             data := [130; 128; 127; 7; 140; 128; 120; 9] |}
          Inputs.vintage_film)
  = [175; 133; 111; 7; 255; 138; 0; 9].
Proof. vm_compute. reflexivity. Qed.

Example ToUint8Clamp_ties :
  map ToUint8Clamp [0.5; 1.5; 2.5; 254.5; 200.75; 300; -3; nan]%float
  = [0; 2; 2; 254; 201; 255; 0; 0].
Proof. vm_compute. reflexivity. Qed.

(** ** Claims on the order of the steps and on the frame *)

(** C1: for every pixel of the buffer and every preset, the three bytes
    stored for the pixel are those of the contrast remap, then the
    brightness/warmth scaling, then the saturation blend around the gray of
    the scaled values, clamped ([Spec.pixel]); the store converts each
    number with [ToUint8Clamp]. *)
Theorem applyFilters_pixel imageData preset (j : nat) (r g b : Z) :
  data imageData !! (4 * j)%nat = Some r ->
  data imageData !! (4 * j + 1)%nat = Some g ->
  data imageData !! (4 * j + 2)%nat = Some b ->
  let out := Spec.pixel preset (of_byte r) (of_byte g) (of_byte b) in
  data (applyFilters imageData preset) !! (4 * j)%nat
    = Some (ToUint8Clamp (channel 0 out)) /\
  data (applyFilters imageData preset) !! (4 * j + 1)%nat
    = Some (ToUint8Clamp (channel 1 out)) /\
  data (applyFilters imageData preset) !! (4 * j + 2)%nat
    = Some (ToUint8Clamp (channel 2 out)).
Proof.
  intros Hr Hg Hb out.
  pose proof (lookup_lt_Some _ _ _ Hr) as Lr.
  pose proof (lookup_lt_Some _ _ _ Hg) as Lg.
  pose proof (lookup_lt_Some _ _ _ Hb) as Lb.
  rewrite !applyFilters_lookup_colour by lia_mod.
  replace ((4 * j) mod 4)%nat with 0%nat by lia_mod.
  replace ((4 * j + 1) mod 4)%nat with 1%nat by lia_mod.
  replace ((4 * j + 2) mod 4)%nat with 2%nat by lia_mod.
  replace (4 * j - 0)%nat with (4 * j)%nat by lia.
  replace (4 * j + 1 - 1)%nat with (4 * j)%nat by lia.
  replace (4 * j + 2 - 2)%nat with (4 * j)%nat by lia.
  rewrite (saturated_spec preset _ _ r g b) by assumption.
  auto.
Qed.

Lemma applyFilters_pixel_witness :
  let imageData := Inputs.one_pixel 200 150 100 255 in
  let result := data (applyFilters imageData Inputs.auto_enhance) in
  let out := Spec.pixel Inputs.auto_enhance
               (of_byte 200) (of_byte 150) (of_byte 100) in
  (data imageData !! (4 * 0)%nat = Some 200 /\
   data imageData !! (4 * 0 + 1)%nat = Some 150 /\
   data imageData !! (4 * 0 + 2)%nat = Some 100) /\
  result !! (4 * 0)%nat = Some (ToUint8Clamp (channel 0 out)) /\
  result !! (4 * 0 + 1)%nat = Some (ToUint8Clamp (channel 1 out)) /\
  result !! (4 * 0 + 2)%nat = Some (ToUint8Clamp (channel 2 out)).
Proof.
  split; [repeat split|].
  apply (applyFilters_pixel (Inputs.one_pixel 200 150 100 255)
           Inputs.auto_enhance 0 200 150 100); reflexivity.
Defined.

(** C3: the alpha byte of every pixel is the same after the call as
    before, and the bytes of the colour channels after the call do not
    depend on any alpha byte of the input. *)
Theorem applyFilters_alpha imageData preset :
  (forall k, (k mod 4 = 3)%nat ->
     data (applyFilters imageData preset) !! k = data imageData !! k) /\
  (forall imageData',
     length (data imageData') = length (data imageData) ->
     (forall k, (k mod 4 <> 3)%nat ->
        data imageData' !! k = data imageData !! k) ->
     forall k, (k mod 4 <> 3)%nat ->
       data (applyFilters imageData' preset) !! k =
       data (applyFilters imageData preset) !! k).
Proof.
  split.
  - intros k Hk. apply applyFilters_lookup_other. lia.
  - intros imageData' Hlen Hsame k Hk.
    destruct (decide (k < length (data imageData))%nat) as [Hlt|Hge].
    + rewrite !applyFilters_lookup_colour by lia.
      do 3 f_equal. apply saturated_ext.
      intros k' Hk'. apply Hsame. lia_mod.
    + rewrite !applyFilters_lookup_other by lia. apply Hsame, Hk.
Qed.

Lemma applyFilters_alpha_witness :
  let imageData := Inputs.one_pixel 200 150 100 255 in
  let imageData' := Inputs.one_pixel 200 150 100 17 in
  data (applyFilters imageData Inputs.auto_enhance) !! 3%nat = Some 255 /\
  data (applyFilters imageData' Inputs.auto_enhance) !! 2%nat =
  data (applyFilters imageData Inputs.auto_enhance) !! 2%nat.
Proof.
  destruct (applyFilters_alpha (Inputs.one_pixel 200 150 100 255)
              Inputs.auto_enhance) as [Hkept Hunread].
  split.
  - apply (Hkept 3%nat). reflexivity.
  - apply (Hunread (Inputs.one_pixel 200 150 100 17)).
    + reflexivity.
    + intros [|[|[|[|k]]]] Hk; try reflexivity. now elim Hk.
    + discriminate.
Defined.

(** C2: every byte the transform stores lies in [0, 255]; the number
    handed to the store is [clamp] applied once, to the saturation blend of
    the remapped and scaled values, which are themselves computed without
    any clamping (on some pixel a variant clamping after each step stores
    other bytes); that number is NaN, stored as 0, or has its value in
    [0, 255]. *)
Theorem applyFilters_clamped_once imageData preset k v :
  (k mod 4 <> 3)%nat ->
  data (applyFilters imageData preset) !! k = Some v ->
  let factor := contrast_factor (contrast preset) in
  let i := (k - k mod 4)%nat in
  let r := ToNumber (data imageData !! i) in
  let g := ToNumber (data imageData !! (i + 1)%nat) in
  let b := ToNumber (data imageData !! (i + 2)%nat) in
  let t := (((factor * (r - 128) + 128)
               * (brightness preset + warmth preset))%float,
            ((factor * (g - 128) + 128) * brightness preset)%float,
            ((factor * (b - 128) + 128)
               * (brightness preset - warmth preset))%float) in
  let x := blend t (saturation preset) (k mod 4) in
  0 <= v <= 255 /\
  v = ToUint8Clamp (clamp x) /\
  (is_nan x = true /\ v = 0 \/
   exists q, mv (clamp x) = Some q /\ (0 <= q)%Q /\ (q <= 255 # 1)%Q) /\
  (exists p R G B,
     map ToUint8Clamp
       [channel 0 (Spec.pixel p R G B); channel 1 (Spec.pixel p R G B);
        channel 2 (Spec.pixel p R G B)] <>
     map ToUint8Clamp
       [channel 0 (Spec.pixel_clamping_each_step p R G B);
        channel 1 (Spec.pixel_clamping_each_step p R G B);
        channel 2 (Spec.pixel_clamping_each_step p R G B)]).
Proof.
  intros Hc Hv. cbn zeta.
  pose proof (lookup_lt_Some _ _ _ Hv) as Hk.
  rewrite applyFilters_length in Hk.
  rewrite applyFilters_lookup_colour in Hv by assumption.
  rewrite saturated_channel in Hv by lia_mod.
  injection Hv as <-.
  change (adjusted preset (contrast_factor (contrast preset))
            (data imageData) (k - k mod 4))
    with (((contrast_factor (contrast preset) *
             (ToNumber (data imageData !! (k - k mod 4)%nat) - 128) + 128)
             * (brightness preset + warmth preset))%float,
          ((contrast_factor (contrast preset) *
             (ToNumber (data imageData !! (k - k mod 4 + 1)%nat) - 128) + 128)
             * brightness preset)%float,
          ((contrast_factor (contrast preset) *
             (ToNumber (data imageData !! (k - k mod 4 + 2)%nat) - 128) + 128)
             * (brightness preset - warmth preset))%float).
  set (x := blend _ _ _).
  split; [apply NumberFacts.ToUint8Clamp_range|].
  split; [reflexivity|]. split.
  - destruct (is_nan x) eqn:Hn.
    + left. split; [reflexivity|].
      rewrite NumberFacts.clamp_nan by assumption. reflexivity.
    + right. now apply NumberFacts.clamp_value.
  - exists Inputs.vintage_film, 140%float, 128%float, 120%float.
    vm_compute. discriminate.
Qed.

Lemma applyFilters_clamped_once_witness :
  let imageData := Inputs.one_pixel 200 150 100 255 in
  ((2 mod 4 <> 3)%nat /\
   data (applyFilters imageData Inputs.auto_enhance) !! 2%nat = Some 255) /\
  0 <= 255 <= 255.
Proof.
  assert (Hc : (2 mod 4 <> 3)%nat) by discriminate.
  assert (Hv : data (applyFilters (Inputs.one_pixel 200 150 100 255)
                       Inputs.auto_enhance) !! 2%nat = Some 255)
    by (vm_compute; reflexivity).
  split; [split; assumption|].
  exact (proj1 (applyFilters_clamped_once _ _ _ _ Hc Hv)).
Defined.

(** C10: every colour byte stored is an integer: the number produced by
    [clamp] on the saturation blend is converted on store, NaN to 0 and
    any other (its value lies in [0, 255]) to the nearest integer, ties to
    even. *)
Theorem applyFilters_store_rounds imageData preset k :
  (k < length (data imageData))%nat -> (k mod 4 <> 3)%nat ->
  let factor := contrast_factor (contrast preset) in
  let t := adjusted preset factor (data imageData) (k - k mod 4) in
  let x := clamp (blend t (saturation preset) (k mod 4)) in
  exists n : Z,
    data (applyFilters imageData preset) !! k = Some n /\
    n = ToUint8Clamp x /\
    (is_nan x = true -> n = 0) /\
    (is_nan x = false ->
     exists q, mv x = Some q /\ (0 <= q)%Q /\ (q <= 255 # 1)%Q /\
               Spec.nearest_ties_even q n).
Proof.
  intros Hk Hc. cbn zeta.
  rewrite applyFilters_lookup_colour by assumption.
  rewrite saturated_channel by lia_mod.
  set (y := blend _ _ _).
  eexists. split; [reflexivity|]. split; [reflexivity|]. split.
  - apply NumberFacts.ToUint8Clamp_nan.
  - intros Hn. destruct (is_nan y) eqn:Hy.
    + rewrite NumberFacts.clamp_nan in Hn by assumption. discriminate.
    + destruct (NumberFacts.clamp_value y Hy) as (q & Hq & H0 & H255).
      exists q. split; [assumption|]. split; [assumption|].
      split; [assumption|]. now apply NumberFacts.ToUint8Clamp_nearest.
Qed.

Lemma applyFilters_store_rounds_witness :
  let imageData := Inputs.one_pixel 130 128 127 255 in
  ((1 < length (data imageData))%nat /\ (1 mod 4 <> 3)%nat) /\
  exists n : Z,
    data (applyFilters imageData Inputs.auto_enhance) !! 1%nat = Some n.
Proof.
  assert (Hk : (1 < length (data (Inputs.one_pixel 130 128 127 255)))%nat)
    by (cbn; lia).
  assert (Hc : (1 mod 4 <> 3)%nat) by discriminate.
  split; [split; assumption|].
  destruct (applyFilters_store_rounds _ Inputs.auto_enhance _ Hk Hc)
    as (n & Hn & _).
  exists n. exact Hn.
Defined.

(** ** Claims on single parameters *)

(** C4 as stated does not hold: at contrast 1 the factor does not read
    133.9 to one decimal. *)
Lemma factor_at_one_is_not_133_9 :
  ~ (contrast_factor 1 = (259 * 510 / (255 * 4))%float /\
     Spec.reads_to_one_decimal (contrast_factor 1) 133.9).
Proof.
  intros [_ (q & Hq & Habs)].
  vm_compute in Hq. injection Hq as <-.
  vm_compute in Habs. apply Habs. reflexivity.
Qed.

(** C4, amended: at contrast 1 the factor is (259 x 510) / (255 x 4),
    which is 129.5 exactly, so the remap is not the identity: it fixes
    128 and sends 129 to 257.5. *)
Theorem contrast_one_factor :
  contrast_factor 1 = (259 * 510 / (255 * 4))%float /\
  contrast_factor 1 = 129.5%float /\
  mv (contrast_factor 1) = Some (4556376185503744 # 35184372088832) /\
  (4556376185503744 # 35184372088832 == 129.5)%Q /\
  Spec.contrast_remap (contrast_factor 1) (of_byte 128) = of_byte 128 /\
  Spec.contrast_remap (contrast_factor 1) (of_byte 129) = 257.5%float /\
  strict_eq (Spec.contrast_remap (contrast_factor 1) (of_byte 129))
    (of_byte 129) = false.
Proof. repeat split. Qed.

(** C6: the brightness/warmth step scales R by brightness + w and B by
    brightness - w; with the warmth negated the two multipliers are
    exchanged, and G is scaled by brightness in both cases. *)
Theorem warmth_sign_swaps preset factor data i :
  let w := warmth preset in
  let b := brightness preset in
  let R' := channel 0 (remapped factor data i) in
  let G' := channel 1 (remapped factor data i) in
  let B' := channel 2 (remapped factor data i) in
  adjusted preset factor data i =
    ((R' * (b + w))%float, (G' * b)%float, (B' * (b - w))%float) /\
  adjusted (with_warmth preset (- w)) factor data i =
    ((R' * (b - w))%float, (G' * b)%float, (B' * (b + w))%float) /\
  (b + - w = b - w)%float /\ (b - - w = b + w)%float.
Proof.
  cbn zeta. unfold adjusted, remapped, with_warmth.
  cbn [channel fst snd brightness warmth].
  rewrite NumberFacts.add_opp, NumberFacts.sub_opp. auto.
Qed.

(** ** Claims on the catalog *)

Lemma find_first {A} (f : A -> bool) (before : list A) (x : A) (after : list A) :
  Forall (fun y => f y = false) before -> f x = true ->
  find f (before ++ x :: after) = Some x.
Proof.
  induction 1 as [|y before Hy _ IH]; intros Hx; cbn [app find].
  - now rewrite Hx.
  - rewrite Hy. now apply IH.
Qed.

Lemma find_none_all {A} (f : A -> bool) (l : list A) :
  Forall (fun y => f y = false) l -> find f l = None.
Proof.
  induction 1 as [|y l Hy _ IH]; cbn [find]; [reflexivity|].
  now rewrite Hy.
Qed.

(** C8: the catalog is the table of the specification: four presets, in
    its order, with its names and descriptions, each numeric parameter
    being the number written as the decimal of the table, which is that
    decimal up to the rounding of a number. *)
Theorem filterPresets_catalog :
  length filterPresets = 4%nat /\
  filterPresets = map Spec.preset_of_entry Spec.catalog /\
  map name filterPresets =
    ["Auto Enhance"; "Golden Hour"; "Cool Studio"; "Vintage Film"] /\
  Forall2 Spec.close_to_entry Spec.catalog filterPresets.
Proof.
  split; [reflexivity|]. split; [reflexivity|]. split; [reflexivity|].
  repeat constructor.
  all: eexists; (split; [vm_compute; reflexivity|]).
  all: vm_compute; discriminate.
Qed.

(** C9: selection returns the first preset of the catalog with the
    requested name, and the first preset of the catalog, Auto Enhance,
    when no preset has that name. *)
Theorem currentPreset_lookup (presetName : string) :
  (forall before preset after,
     filterPresets = before ++ preset :: after ->
     Forall (fun p => name p <> presetName) before ->
     name preset = presetName ->
     currentPreset presetName = Some preset) /\
  (Forall (fun p => name p <> presetName) filterPresets ->
   currentPreset presetName = head filterPresets /\
   option_map name (currentPreset presetName) = Some "Auto Enhance"%string).
Proof.
  unfold currentPreset. split.
  - intros before preset after -> Hbefore Hname.
    rewrite (find_first _ before preset after); [reflexivity| |].
    + eapply Forall_impl; [exact Hbefore|].
      intros p Hp. now apply String.eqb_neq.
    + now apply String.eqb_eq.
  - intros Hnone. rewrite find_none_all; [split; reflexivity|].
    eapply Forall_impl; [exact Hnone|].
    intros p Hp. now apply String.eqb_neq.
Qed.

Lemma currentPreset_lookup_witness :
  option_map name (currentPreset "Cool Studio") = Some "Cool Studio"%string /\
  option_map name (currentPreset "Sepia") = Some "Auto Enhance"%string.
Proof.
  split.
  - destruct (currentPreset_lookup "Cool Studio") as [Hfirst _].
    rewrite (Hfirst (take 2 filterPresets)
               {| name := "Cool Studio";
                  description := "Clean, modern tones with crisp shadows.";
                  brightness := 1.02; contrast := 1.12; warmth := -0.06;
                  saturation := 1.04 |}
               (drop 3 filterPresets)).
    + reflexivity.
    + reflexivity.
    + repeat constructor; discriminate.
    + reflexivity.
  - destruct (currentPreset_lookup "Sepia") as [_ Hnone].
    apply Hnone. repeat constructor; discriminate.
Defined.

(** ** Claims on particular presets *)

(** C5 as stated does not hold: with saturation 0 and finite parameters
    large enough for [R'' - gray] to overflow, the pixel (255, 255, 0)
    gets the bytes 0, 255, 255. *)
Lemma overflow_breaks_grayscale :
  data (applyFilters (Inputs.one_pixel 255 255 0 9) Inputs.overflowing)
    = [0; 255; 255; 9] /\
  ~ Spec.grayscale_at_zero_saturation.
Proof.
  split; [vm_compute; reflexivity|]. intros H.
  specialize (H (Inputs.one_pixel 255 255 0 9) Inputs.overflowing 0%nat).
  destruct H as (H0 & H1 & _); [reflexivity|cbn; lia|].
  vm_compute in H0. vm_compute in H1. congruence.
Qed.

(** C5, amended: with saturation 0, for every pixel whose three
    differences [channel'' - gray] are finite (none overflows), the three
    colour bytes stored are equal, each the stored clamped luminance of the
    brightness/warmth-adjusted values. *)
Theorem saturation_zero_gray imageData preset (j : nat) :
  strict_eq (saturation preset) 0 = true ->
  (4 * j + 2 < length (data imageData))%nat ->
  let t := adjusted preset (contrast_factor (contrast preset))
             (data imageData) (4 * j) in
  is_finite (channel 0 t - luminance t) = true ->
  is_finite (channel 1 t - luminance t) = true ->
  is_finite (channel 2 t - luminance t) = true ->
  let y := ToUint8Clamp (clamp (luminance t)) in
  data (applyFilters imageData preset) !! (4 * j)%nat = Some y /\
  data (applyFilters imageData preset) !! (4 * j + 1)%nat = Some y /\
  data (applyFilters imageData preset) !! (4 * j + 2)%nat = Some y.
Proof.
  intros Hs Hlen t H0 H1 H2 y.
  rewrite !applyFilters_lookup_colour by lia_mod.
  replace ((4 * j) mod 4)%nat with 0%nat by lia_mod.
  replace ((4 * j + 1) mod 4)%nat with 1%nat by lia_mod.
  replace ((4 * j + 2) mod 4)%nat with 2%nat by lia_mod.
  replace (4 * j - 0)%nat with (4 * j)%nat by lia.
  replace (4 * j + 1 - 1)%nat with (4 * j)%nat by lia.
  replace (4 * j + 2 - 2)%nat with (4 * j)%nat by lia.
  rewrite !saturated_channel by lia. fold t. unfold blend.
  rewrite !NumberFacts.blend_zero_saturation by assumption.
  auto.
Qed.

Lemma saturation_zero_gray_witness :
  let imageData := Inputs.one_pixel 200 150 100 255 in
  let result := data (applyFilters imageData Inputs.grayscale) in
  let t := adjusted Inputs.grayscale
             (contrast_factor (contrast Inputs.grayscale))
             (data imageData) (4 * 0) in
  let y := ToUint8Clamp (clamp (luminance t)) in
  (strict_eq (saturation Inputs.grayscale) 0 = true /\
   is_finite (channel 0 t - luminance t) = true /\
   is_finite (channel 1 t - luminance t) = true /\
   is_finite (channel 2 t - luminance t) = true) /\
  result !! (4 * 0)%nat = Some y /\
  result !! (4 * 0 + 1)%nat = Some y /\
  result !! (4 * 0 + 2)%nat = Some y.
Proof.
  split; [repeat split|].
  apply (saturation_zero_gray (Inputs.one_pixel 200 150 100 255)
           Inputs.grayscale 0); try reflexivity.
  cbn. lia.
Defined.

(** C7: with brightness 1, warmth 0, saturation 1 and a contrast whose
    factor is 1, a gray pixel keeps its three bytes, so that applying the
    transform twice gives the pixel that applying it once gives. *)
Theorem neutral_idempotent_on_gray imageData preset (j : nat) (v : Z) :
  strict_eq (brightness preset) 1 = true ->
  strict_eq (warmth preset) 0 = true ->
  strict_eq (saturation preset) 1 = true ->
  strict_eq (contrast_factor (contrast preset)) 1 = true ->
  0 <= v <= 255 ->
  data imageData !! (4 * j)%nat = Some v ->
  data imageData !! (4 * j + 1)%nat = Some v ->
  data imageData !! (4 * j + 2)%nat = Some v ->
  let once := applyFilters imageData preset in
  let twice := applyFilters once preset in
  (forall c, (c < 3)%nat -> data once !! (4 * j + c)%nat = Some v) /\
  (forall c, (c < 4)%nat ->
     data twice !! (4 * j + c)%nat = data once !! (4 * j + c)%nat).
Proof.
  intros Hb Hw Hs Hf Hv.
  assert (Hone : Prim2SF 1 = S754_finite false 4503599627370496 (-52))
    by reflexivity.
  apply (NumberFacts.strict_eq_finite _ _ _ _ _ Hone) in Hb, Hs, Hf.
  apply NumberFacts.strict_eq_zero in Hw as [sw Hw].
  apply NumberFacts.zero_cases in Hw.
  assert (Hfixed : forall img,
    data img !! (4 * j)%nat = Some v ->
    data img !! (4 * j + 1)%nat = Some v ->
    data img !! (4 * j + 2)%nat = Some v ->
    forall c, (c < 3)%nat ->
    data (applyFilters img preset) !! (4 * j + c)%nat = Some v).
  { intros img Hr Hg Hbl c Hc.
    pose proof (lookup_lt_Some _ _ _ Hbl) as Hlen.
    rewrite applyFilters_lookup_colour by lia_mod.
    replace ((4 * j + c) mod 4)%nat with c by lia_mod.
    replace (4 * j + c - c)%nat with (4 * j)%nat by lia.
    f_equal. unfold saturated, adjusted, remapped.
    rewrite Hr, Hg, Hbl, Hb, Hs, Hf. cbn [ToNumber].
    pose proof (NumberFacts.forall_bytes _ NumberFacts.gray_fixed_all v Hv)
      as Hcheck.
    apply andb_prop in Hcheck as [Hpos Hneg].
    assert (Hcheck : gray_fixed_check (warmth preset) v = true)
      by (destruct Hw as [-> | ->]; assumption).
    unfold gray_fixed_check in Hcheck. rewrite forallb_forall in Hcheck.
    apply Z.eqb_eq, Hcheck.
    destruct c as [|[|[|c]]]; cbn; auto; lia. }
  intros Hr Hg Hbl once twice.
  pose proof (Hfixed imageData Hr Hg Hbl) as Honce. fold once in Honce.
  split; [exact Honce|].
  intros c Hc. destruct (decide (c = 3%nat)) as [->|Hc3].
  - apply applyFilters_lookup_other. lia_mod.
  - rewrite (Honce c) by lia. apply Hfixed; [| | |lia].
    + rewrite <- (Nat.add_0_r (4 * j)). apply Honce. lia.
    + apply Honce. lia.
    + apply Honce. lia.
Qed.

Lemma neutral_idempotent_on_gray_witness :
  let imageData := Inputs.one_pixel 77 77 77 255 in
  let once := applyFilters imageData Inputs.neutral in
  let twice := applyFilters once Inputs.neutral in
  (strict_eq (brightness Inputs.neutral) 1 = true /\
   strict_eq (warmth Inputs.neutral) 0 = true /\
   strict_eq (saturation Inputs.neutral) 1 = true /\
   strict_eq (contrast_factor (contrast Inputs.neutral)) 1 = true) /\
  data once !! (4 * 0 + 1)%nat = Some 77 /\
  data twice !! (4 * 0 + 1)%nat = data once !! (4 * 0 + 1)%nat.
Proof.
  split; [repeat split|].
  destruct (neutral_idempotent_on_gray (Inputs.one_pixel 77 77 77 255)
              Inputs.neutral 0 77) as [Honce Htwice]; try reflexivity; [lia|].
  split; [apply Honce|apply Htwice]; lia.
Defined.

(** * Further properties of the code *)

(** ** Numbers that are not numbers *)

Module NanFacts.

Lemma SFadd_nan_l Y : SF64add S754_nan Y = S754_nan.
Proof. reflexivity. Qed.

Lemma SFadd_nan_r X : SF64add X S754_nan = S754_nan.
Proof. destruct X; reflexivity. Qed.

Lemma SFsub_nan_r X : SF64sub X S754_nan = S754_nan.
Proof. destruct X; reflexivity. Qed.

Lemma SFmul_nan_r X : SF64mul X S754_nan = S754_nan.
Proof. destruct X; reflexivity. Qed.

Lemma SFdiv_nan_r X : SF64div X S754_nan = S754_nan.
Proof. destruct X; reflexivity. Qed.

Lemma is_nan_true x : is_nan x = true <-> Prim2SF x = S754_nan.
Proof.
  rewrite NumberFacts.is_nan_spec. destruct (Prim2SF x); split; congruence.
Qed.

Lemma add_nan_l x y : is_nan x = true -> is_nan (x + y) = true.
Proof.
  rewrite !is_nan_true, FloatAxioms.add_spec. now intros ->.
Qed.

Lemma add_nan_r x y : is_nan y = true -> is_nan (x + y) = true.
Proof.
  rewrite !is_nan_true, FloatAxioms.add_spec. intros ->. apply SFadd_nan_r.
Qed.

Lemma sub_nan_l x y : is_nan x = true -> is_nan (x - y) = true.
Proof.
  rewrite !is_nan_true, FloatAxioms.sub_spec. now intros ->.
Qed.

Lemma sub_nan_r x y : is_nan y = true -> is_nan (x - y) = true.
Proof.
  rewrite !is_nan_true, FloatAxioms.sub_spec. intros ->. apply SFsub_nan_r.
Qed.

Lemma mul_nan_l x y : is_nan x = true -> is_nan (x * y) = true.
Proof.
  rewrite !is_nan_true, FloatAxioms.mul_spec. now intros ->.
Qed.

Lemma mul_nan_r x y : is_nan y = true -> is_nan (x * y) = true.
Proof.
  rewrite !is_nan_true, FloatAxioms.mul_spec. intros ->. apply SFmul_nan_r.
Qed.

Lemma div_nan_l x y : is_nan x = true -> is_nan (x / y) = true.
Proof.
  rewrite !is_nan_true, FloatAxioms.div_spec. now intros ->.
Qed.

Lemma div_nan_r x y : is_nan y = true -> is_nan (x / y) = true.
Proof.
  rewrite !is_nan_true, FloatAxioms.div_spec. intros ->. apply SFdiv_nan_r.
Qed.

Create HintDb nan discriminated.
#[export] Hint Resolve add_nan_l add_nan_r sub_nan_l sub_nan_r
  mul_nan_l mul_nan_r div_nan_l div_nan_r : nan.

(** A NaN among the three adjusted values makes the gray NaN. *)
Lemma luminance_nan t c :
  (c < 3)%nat -> is_nan (channel c t) = true -> is_nan (luminance t) = true.
Proof.
  intros Hc H. unfold luminance.
  destruct c as [|[|[|c]]]; try lia; auto 6 with nan.
Qed.

Lemma blend_nan_gray t sat c :
  is_nan (luminance t) = true -> is_nan (blend t sat c) = true.
Proof. intros H. unfold blend. auto with nan. Qed.

Lemma blend_nan_saturation t sat c :
  is_nan sat = true -> is_nan (blend t sat c) = true.
Proof. intros H. unfold blend. auto with nan. Qed.

(** A NaN blend is stored as 0. *)
Lemma stored_nan x : is_nan x = true -> ToUint8Clamp (clamp x) = 0.
Proof. intros H. rewrite NumberFacts.clamp_nan by assumption. reflexivity. Qed.

(** If the blend of every channel of the pixel of offset [k] is NaN,
    the colour byte at [k] is 0. *)
Lemma nan_blend_stored imageData preset k :
  (k < length (data imageData))%nat -> (k mod 4 <> 3)%nat ->
  is_nan (blend (adjusted preset (contrast_factor (contrast preset))
                   (data imageData) (k - k mod 4))
            (saturation preset) (k mod 4)) = true ->
  data (applyFilters imageData preset) !! k = Some 0.
Proof.
  intros Hk Hc Hn. rewrite applyFilters_lookup_colour by assumption.
  rewrite saturated_channel by lia_mod. now rewrite stored_nan.
Qed.

End NanFacts.

(** ** The transform on whole images *)

(** X1: the transform keeps the shape of the image (width, height and
    number of bytes), and an image whose bytes all lie in [0, 255] is
    turned into one whose bytes all lie in [0, 255]. *)
Theorem applyFilters_keeps_images imageData preset :
  width (applyFilters imageData preset) = width imageData /\
  height (applyFilters imageData preset) = height imageData /\
  length (data (applyFilters imageData preset)) = length (data imageData) /\
  (Forall (fun b => 0 <= b <= 255) (data imageData) ->
   Forall (fun b => 0 <= b <= 255) (data (applyFilters imageData preset))).
Proof.
  split; [reflexivity|]. split; [reflexivity|].
  split; [apply applyFilters_length|].
  intros Hin. apply Forall_lookup. intros k b Hb.
  pose proof (lookup_lt_Some _ _ _ Hb) as Hk.
  rewrite applyFilters_length in Hk.
  destruct (decide (k mod 4 = 3)%nat) as [Ha|Hc].
  - rewrite applyFilters_lookup_other in Hb by lia.
    exact (proj1 (Forall_lookup _ _) Hin k b Hb).
  - rewrite applyFilters_lookup_colour in Hb by assumption.
    injection Hb as <-. apply NumberFacts.ToUint8Clamp_range.
Qed.

Lemma applyFilters_keeps_images_witness :
  let imageData := Inputs.one_pixel 200 150 100 255 in
  Forall (fun b => 0 <= b <= 255) (data imageData) /\
  Forall (fun b => 0 <= b <= 255)
    (data (applyFilters imageData Inputs.auto_enhance)).
Proof.
  assert (H : Forall (fun b => 0 <= b <= 255)
                (data (Inputs.one_pixel 200 150 100 255)))
    by (repeat constructor; lia).
  split; [exact H|].
  apply (applyFilters_keeps_images (Inputs.one_pixel 200 150 100 255)
           Inputs.auto_enhance). exact H.
Defined.

(** The three numbers of an iteration depend on the three bytes it
    reads, wherever they are. *)
Lemma saturated_reads preset factor data data' i i' :
  data' !! i' = data !! i ->
  data' !! (i' + 1)%nat = data !! (i + 1)%nat ->
  data' !! (i' + 2)%nat = data !! (i + 2)%nat ->
  saturated preset factor data' i' = saturated preset factor data i.
Proof.
  intros H0 H1 H2. unfold saturated, adjusted, remapped.
  now rewrite H0, H1, H2.
Qed.

(** X2: pixels are transformed independently of their neighbours and of
    their position: the transform of two buffers put end to end, the first
    one holding whole pixels, is the two transforms put end to end. *)
Theorem applyFilters_app imageData1 imageData2 imageData preset :
  data imageData = data imageData1 ++ data imageData2 ->
  (length (data imageData1) mod 4 = 0)%nat ->
  data (applyFilters imageData preset) =
  data (applyFilters imageData1 preset) ++
  data (applyFilters imageData2 preset).
Proof.
  intros Happ Hlen. apply list_eq. intros k.
  set (n := length (data imageData1)) in *.
  assert (Hlen_all : length (data imageData)
                     = (n + length (data imageData2))%nat)
    by (rewrite Happ, length_app; reflexivity).
  destruct (decide (k < n)%nat) as [Hlt|Hge].
  - rewrite lookup_app_l by (rewrite applyFilters_length; exact Hlt).
    destruct (decide (k mod 4 = 3)%nat) as [Ha|Hc].
    + rewrite !applyFilters_lookup_other by lia.
      rewrite Happ. apply lookup_app_l. exact Hlt.
    + rewrite !applyFilters_lookup_colour by (fold n; lia).
      apply (f_equal (fun t => Some (ToUint8Clamp (channel (k mod 4) t)))).
      apply saturated_reads; rewrite Happ; apply lookup_app_l;
        fold n; lia_mod.
  - rewrite lookup_app_r by (rewrite applyFilters_length; fold n; lia).
    rewrite applyFilters_length. fold n.
    destruct (decide ((k < length (data imageData))%nat
                      /\ (k mod 4 <> 3)%nat)) as [[Hk Hc]|Hout].
    + rewrite (applyFilters_lookup_colour imageData) by assumption.
      rewrite (applyFilters_lookup_colour imageData2) by lia_mod.
      replace ((k - n) mod 4)%nat with (k mod 4)%nat by lia_mod.
      apply (f_equal (fun t => Some (ToUint8Clamp (channel (k mod 4) t)))).
      apply saturated_reads; rewrite Happ, lookup_app_r; fold n;
        try lia_mod; apply (f_equal (fun o => data imageData2 !! o));
        lia_mod.
    + rewrite !applyFilters_lookup_other by lia_mod.
      rewrite Happ. apply lookup_app_r. fold n. lia.
Qed.

Lemma applyFilters_app_witness :
  data (applyFilters
          {| width := 2; height := 1;
             data := [130; 128; 127; 7; 140; 128; 120; 9] |}
          Inputs.vintage_film) =
  data (applyFilters (Inputs.one_pixel 130 128 127 7) Inputs.vintage_film) ++
  data (applyFilters (Inputs.one_pixel 140 128 120 9) Inputs.vintage_film).
Proof.
  apply (applyFilters_app (Inputs.one_pixel 130 128 127 7)
           (Inputs.one_pixel 140 128 120 9)); reflexivity.
Defined.



(** ** [clamp] *)

Module ClampFacts.

Lemma ltb_not_nan_l x y : (x <? y)%float = true -> is_nan x = false.
Proof.
  rewrite FloatAxioms.ltb_spec, NumberFacts.is_nan_spec. unfold SFltb.
  destruct (Prim2SF x); try reflexivity. discriminate.
Qed.

Lemma ltb_not_nan_r x y : (x <? y)%float = true -> is_nan y = false.
Proof.
  rewrite FloatAxioms.ltb_spec, NumberFacts.is_nan_spec. unfold SFltb.
  destruct (Prim2SF y); try reflexivity.
  destruct (Prim2SF x); discriminate.
Qed.

Lemma leb_not_nan_l x y : (x <=? y)%float = true -> is_nan x = false.
Proof.
  rewrite FloatAxioms.leb_spec, NumberFacts.is_nan_spec. unfold SFleb.
  destruct (Prim2SF x); try reflexivity. discriminate.
Qed.

Lemma ltb_asym x y : (x <? y)%float = true -> (y <? x)%float = false.
Proof.
  rewrite !FloatAxioms.ltb_spec. unfold SFltb.
  rewrite (NumberFacts.SFcompare_antisym (Prim2SF x) (Prim2SF y)).
  destruct (SFcompare (Prim2SF x) (Prim2SF y)) as [[| |]|]; cbn; congruence.
Qed.

Lemma leb_not_ltb x y : (x <=? y)%float = true -> (y <? x)%float = false.
Proof.
  rewrite FloatAxioms.ltb_spec, FloatAxioms.leb_spec. unfold SFltb, SFleb.
  rewrite (NumberFacts.SFcompare_antisym (Prim2SF x) (Prim2SF y)).
  destruct (SFcompare (Prim2SF x) (Prim2SF y)) as [[| |]|]; cbn; congruence.
Qed.

(** A number above 255 is above 0. *)
Lemma above_255_positive v : (255 <? v)%float = true -> (0 <? v)%float = true.
Proof.
  rewrite !FloatAxioms.ltb_spec. unfold SFltb.
  replace (Prim2SF 0) with (S754_zero false) by reflexivity.
  replace (Prim2SF 255) with (S754_finite false 8972014882652160 (-45))
    by reflexivity.
  destruct (Prim2SF v) as [s|s| |s m e]; cbn [SFcompare];
    try destruct s; try discriminate; reflexivity.
Qed.

End ClampFacts.

(** X4: [clamp] by cases: NaN stays NaN, a number below 0 gives 0, a
    number above 255 gives 255, a number above 0 and at most 255 is
    returned as it is, and both zeros give +0. *)
Theorem clamp_cases v :
  (is_nan v = true -> clamp v = nan) /\
  ((v <? 0)%float = true -> clamp v = 0%float) /\
  ((255 <? v)%float = true -> clamp v = 255%float) /\
  ((0 <? v)%float = true -> (v <=? 255)%float = true -> clamp v = v) /\
  (strict_eq v 0 = true -> clamp v = 0%float).
Proof.
  split; [|split; [|split; [|split]]].
  - apply NumberFacts.clamp_nan.
  - intros H. rewrite NumberFacts.clamp_eq.
    rewrite (ClampFacts.ltb_not_nan_l _ _ H), (ClampFacts.ltb_asym _ _ H).
    reflexivity.
  - intros H. rewrite NumberFacts.clamp_eq.
    rewrite (ClampFacts.ltb_not_nan_r _ _ H),
      (ClampFacts.above_255_positive _ H).
    cbn zeta. now rewrite H.
  - intros H0 H255. rewrite NumberFacts.clamp_eq.
    rewrite (ClampFacts.ltb_not_nan_r _ _ H0), H0. cbn zeta.
    now rewrite (ClampFacts.leb_not_ltb _ _ H255).
  - intros H. apply NumberFacts.strict_eq_zero in H as [s H].
    destruct (NumberFacts.zero_cases _ _ H) as [-> | ->]; reflexivity.
Qed.

Lemma clamp_cases_witness :
  ((200.75 <? 255)%float = true -> clamp 200.75 = 200.75%float) /\
  clamp (-3) = 0%float /\ clamp 1e300 = 255%float /\ clamp (-0) = 0%float.
Proof.
  destruct (clamp_cases 200.75) as (_ & _ & _ & Hin & _).
  destruct (clamp_cases (-3)) as (_ & Hlow & _).
  destruct (clamp_cases 1e300) as (_ & _ & Hhigh & _).
  destruct (clamp_cases (-0)) as (_ & _ & _ & _ & Hzero).
  exact (conj (fun _ => Hin eq_refl eq_refl)
           (conj (Hlow eq_refl) (conj (Hhigh eq_refl) (Hzero eq_refl)))).
Defined.

(** X5: [clamp] is idempotent, for every number. *)
Theorem clamp_idempotent v : clamp (clamp v) = clamp v.
Proof.
  rewrite (NumberFacts.clamp_eq v).
  destruct (is_nan v) eqn:Hn; [reflexivity|].
  destruct (0 <? v)%float eqn:H0; cbn zeta; [|reflexivity].
  destruct (255 <? v)%float eqn:H255; [reflexivity|].
  rewrite NumberFacts.clamp_eq, Hn, H0. cbn zeta. now rewrite H255.
Qed.

(** ** The contrast remap *)

(** X6: the remap leaves the byte 128 where it is for every finite
    factor, and turns it into NaN for an infinite or NaN factor. *)
Theorem remap_fixes_mid_gray factor :
  (is_finite factor = true -> remap_byte factor 128 = 128%float) /\
  (is_finite factor = false -> is_nan (remap_byte factor 128) = true).
Proof.
  unfold remap_byte.
  change (of_byte 128 - 128)%float with 0%float.
  rewrite NumberFacts.is_finite_spec. split; intros H.
  - apply Prim2SF_inj.
    rewrite FloatAxioms.add_spec, FloatAxioms.mul_spec.
    replace (Prim2SF 0) with (S754_zero false) by reflexivity.
    destruct (Prim2SF factor) as [s|s| |s m e]; try discriminate;
      destruct s; reflexivity.
  - apply NanFacts.add_nan_l. apply NanFacts.is_nan_true.
    rewrite FloatAxioms.mul_spec.
    replace (Prim2SF 0) with (S754_zero false) by reflexivity.
    destruct (Prim2SF factor) as [s|s| |s m e]; try discriminate;
      reflexivity.
Qed.

Lemma remap_fixes_mid_gray_witness :
  (is_finite (contrast_factor 1.1) = true /\
   remap_byte (contrast_factor 1.1) 128 = 128%float) /\
  (is_finite (contrast_factor 1.0156862745098039) = false /\
   is_nan (remap_byte (contrast_factor 1.0156862745098039) 128) = true).
Proof.
  split.
  - split; [reflexivity|].
    apply (proj1 (remap_fixes_mid_gray (contrast_factor 1.1))). reflexivity.
  - split; [reflexivity|].
    apply (proj2 (remap_fixes_mid_gray (contrast_factor 1.0156862745098039))).
    reflexivity.
Defined.

Lemma remapped_channel factor data i c v :
  (c < 3)%nat -> data !! (i + c)%nat = Some v ->
  channel c (remapped factor data i) = remap_byte factor v.
Proof.
  intros Hc Hv. unfold remapped, remap_byte.
  destruct c as [|[|[|c]]]; try lia; cbn [channel fst snd].
  - rewrite Nat.add_0_r in Hv. now rewrite Hv.
  - now rewrite Hv.
  - now rewrite Hv.
Qed.

Lemma adjusted_channel_nan preset factor data i c :
  (c < 3)%nat ->
  is_nan (channel c (remapped factor data i)) = true ->
  is_nan (channel c (adjusted preset factor data i)) = true.
Proof.
  intros Hc H. unfold adjusted.
  destruct (remapped factor data i) as [[aR aG] aB].
  destruct c as [|[|[|c]]]; try lia; cbn [channel fst snd] in *;
    now apply NanFacts.mul_nan_l.
Qed.

(** ** Presets outside the usual range *)

(** X7: a preset with a NaN among its four numbers turns every colour
    byte of every image into 0 (the alpha bytes stay). *)
Theorem nan_parameter_blacks_out imageData preset k :
  is_nan (brightness preset) || is_nan (contrast preset)
  || is_nan (warmth preset) || is_nan (saturation preset) = true ->
  (k < length (data imageData))%nat -> (k mod 4 <> 3)%nat ->
  data (applyFilters imageData preset) !! k = Some 0.
Proof.
  intros Hnan Hk Hc. apply NanFacts.nan_blend_stored; try assumption.
  set (i := (k - k mod 4)%nat).
  apply orb_prop in Hnan as [Hnan|Hs];
    [|now apply NanFacts.blend_nan_saturation].
  apply NanFacts.blend_nan_gray.
  apply orb_prop in Hnan as [Hnan|Hw].
  - apply (NanFacts.luminance_nan _ 1); [lia|].
    unfold adjusted, remapped, contrast_factor. cbn [channel fst snd].
    apply orb_prop in Hnan as [Hb|Hcon].
    + now apply NanFacts.mul_nan_r.
    + apply NanFacts.mul_nan_l, NanFacts.add_nan_l, NanFacts.mul_nan_l,
        NanFacts.div_nan_l, NanFacts.mul_nan_r, NanFacts.add_nan_l.
      now apply NanFacts.mul_nan_l.
  - apply (NanFacts.luminance_nan _ 0); [lia|].
    unfold adjusted, remapped. cbn [channel fst snd].
    now apply NanFacts.mul_nan_r, NanFacts.add_nan_r.
Qed.

Lemma nan_parameter_blacks_out_witness :
  data (applyFilters (Inputs.one_pixel 200 150 100 255)
          MoreInputs.undefined_warmth) !! 1%nat = Some 0.
Proof.
  apply nan_parameter_blacks_out; [reflexivity|cbn; lia|discriminate].
Defined.

(** X8: the denominator of the contrast factor is not guarded: for a
    contrast whose product with 255 is 259 the factor is +Infinity, and a
    pixel with a colour byte equal to 128 then gets three colour bytes 0,
    whatever the other parameters. *)
Theorem singular_contrast imageData preset (j c : nat) :
  strict_eq (contrast preset * 255) 259 = true ->
  (c < 3)%nat ->
  data imageData !! (4 * j + c)%nat = Some 128 ->
  (4 * j + 2 < length (data imageData))%nat ->
  contrast_factor (contrast preset) = infinity /\
  data (applyFilters imageData preset) !! (4 * j)%nat = Some 0 /\
  data (applyFilters imageData preset) !! (4 * j + 1)%nat = Some 0 /\
  data (applyFilters imageData preset) !! (4 * j + 2)%nat = Some 0.
Proof.
  intros Hsing Hc H128 Hlen.
  assert (H259 : Prim2SF 259 = S754_finite false 4556376185503744 (-44))
    by reflexivity.
  apply (NumberFacts.strict_eq_finite _ _ _ _ _ H259) in Hsing.
  assert (Hinf : contrast_factor (contrast preset) = infinity)
    by (unfold contrast_factor; rewrite Hsing; reflexivity).
  split; [exact Hinf|].
  assert (Hgray : is_nan (luminance
                    (adjusted preset (contrast_factor (contrast preset))
                       (data imageData) (4 * j))) = true).
  { apply (NanFacts.luminance_nan _ c Hc).
    apply adjusted_channel_nan; [exact Hc|].
    rewrite (remapped_channel _ _ _ c 128 Hc H128), Hinf. reflexivity. }
  repeat split; apply NanFacts.nan_blend_stored; try lia_mod;
    apply NanFacts.blend_nan_gray.
  - replace (4 * j - (4 * j) mod 4)%nat with (4 * j)%nat by lia_mod.
    exact Hgray.
  - replace (4 * j + 1 - (4 * j + 1) mod 4)%nat with (4 * j)%nat by lia_mod.
    exact Hgray.
  - replace (4 * j + 2 - (4 * j + 2) mod 4)%nat with (4 * j)%nat by lia_mod.
    exact Hgray.
Qed.

Lemma singular_contrast_witness :
  strict_eq (contrast MoreInputs.singular * 255) 259 = true /\
  contrast_factor (contrast MoreInputs.singular) = infinity /\
  data (applyFilters (Inputs.one_pixel 200 128 100 255) MoreInputs.singular)
    !! (4 * 0)%nat = Some 0.
Proof.
  split; [reflexivity|].
  destruct (singular_contrast (Inputs.one_pixel 200 128 100 255)
              MoreInputs.singular 0 1) as (Hinf & H0 & _);
    try reflexivity; [lia|cbn; lia|].
  split; assumption.
Defined.

(** ** Gray pixels *)

Module ZeroFacts.

Lemma strict_eq_zero_false x :
  strict_eq x 0 = false ->
  match Prim2SF x with S754_zero _ => False | _ => True end.
Proof.
  unfold strict_eq. rewrite FloatAxioms.eqb_spec.
  replace (Prim2SF 0) with (S754_zero false) by reflexivity.
  destruct (Prim2SF x) as [s|s| |s m e]; try exact (fun _ => I).
  discriminate.
Qed.

(** Adding or subtracting a zero leaves a number other than zero as it
    is. *)
Lemma add_zero_r x w :
  strict_eq x 0 = false -> strict_eq w 0 = true -> (x + w)%float = x.
Proof.
  intros Hx Hw. apply strict_eq_zero_false in Hx.
  apply NumberFacts.strict_eq_zero in Hw as [s Hw].
  apply Prim2SF_inj. rewrite FloatAxioms.add_spec, Hw.
  destruct (Prim2SF x) as [sx|sx| |sx mx ex]; try contradiction;
    reflexivity.
Qed.

Lemma sub_zero_r x w :
  strict_eq x 0 = false -> strict_eq w 0 = true -> (x - w)%float = x.
Proof.
  intros Hx Hw. apply strict_eq_zero_false in Hx.
  apply NumberFacts.strict_eq_zero in Hw as [s Hw].
  apply Prim2SF_inj. rewrite FloatAxioms.sub_spec, Hw.
  destruct (Prim2SF x) as [sx|sx| |sx mx ex]; try contradiction;
    reflexivity.
Qed.

End ZeroFacts.

(** X9: warmth is what tints: with warmth 0 and a brightness other
    than 0, a gray pixel gets three equal colour bytes, for every
    contrast and every saturation. *)
Theorem gray_stays_gray imageData preset (j : nat) (v : Z) :
  strict_eq (warmth preset) 0 = true ->
  strict_eq (brightness preset) 0 = false ->
  data imageData !! (4 * j)%nat = Some v ->
  data imageData !! (4 * j + 1)%nat = Some v ->
  data imageData !! (4 * j + 2)%nat = Some v ->
  exists y,
    data (applyFilters imageData preset) !! (4 * j)%nat = Some y /\
    data (applyFilters imageData preset) !! (4 * j + 1)%nat = Some y /\
    data (applyFilters imageData preset) !! (4 * j + 2)%nat = Some y.
Proof.
  intros Hw Hb Hr Hg Hbl.
  pose proof (lookup_lt_Some _ _ _ Hbl) as Hlen.
  rewrite !applyFilters_lookup_colour by lia_mod.
  replace ((4 * j) mod 4)%nat with 0%nat by lia_mod.
  replace ((4 * j + 1) mod 4)%nat with 1%nat by lia_mod.
  replace ((4 * j + 2) mod 4)%nat with 2%nat by lia_mod.
  replace (4 * j - 0)%nat with (4 * j)%nat by lia.
  replace (4 * j + 1 - 1)%nat with (4 * j)%nat by lia.
  replace (4 * j + 2 - 2)%nat with (4 * j)%nat by lia.
  unfold saturated, adjusted, remapped. rewrite Hr, Hg, Hbl.
  rewrite (ZeroFacts.add_zero_r _ _ Hb Hw), (ZeroFacts.sub_zero_r _ _ Hb Hw).
  cbn [channel fst snd adjustSaturation]. eauto.
Qed.

Lemma gray_stays_gray_witness :
  let result := data (applyFilters (Inputs.one_pixel 130 130 130 255)
                        MoreInputs.no_warmth) in
  (strict_eq (warmth MoreInputs.no_warmth) 0 = true /\
   strict_eq (brightness MoreInputs.no_warmth) 0 = false) /\
  exists y, result !! (4 * 0)%nat = Some y /\
            result !! (4 * 0 + 1)%nat = Some y /\
            result !! (4 * 0 + 2)%nat = Some y.
Proof.
  split; [split; reflexivity|].
  apply (gray_stays_gray (Inputs.one_pixel 130 130 130 255)
           MoreInputs.no_warmth 0 130); reflexivity.
Defined.

(** ** The catalog *)

(** X10: the names of the catalog are distinct, so that selecting by
    the name of a catalog preset returns that very preset; and for every
    requested name the selection returns a preset of the catalog, never
    [undefined]. *)
Theorem currentPreset_roundtrip :
  NoDup (map name filterPresets) /\
  (forall preset, In preset filterPresets ->
     currentPreset (name preset) = Some preset) /\
  (forall presetName, exists preset,
     currentPreset presetName = Some preset /\ In preset filterPresets).
Proof.
  split; [|split].
  - apply NoDup_ListNoDup. repeat constructor; cbn; intuition discriminate.
  - intros preset Hin. cbn in Hin.
    destruct Hin as [<-|[<-|[<-|[<-|[]]]]]; reflexivity.
  - intros presetName. unfold currentPreset.
    destruct (find _ filterPresets) as [preset|] eqn:Hfind.
    + exists preset. split; [reflexivity|].
      exact (proj1 (find_some _ _ Hfind)).
    + eexists. split; [reflexivity|]. now left.
Qed.

Lemma currentPreset_roundtrip_witness :
  option_map name (currentPreset "Vintage Film") = Some "Vintage Film"%string.
Proof.
  destruct currentPreset_roundtrip as (_ & Hround & _).
  pose proof (Hround {| name := "Vintage Film";
                        description := "Muted palette with gentle contrast.";
                        brightness := 1.03; contrast := 0.92;
                        warmth := 0.03; saturation := 0.9 |}) as H.
  cbn [name] in H. rewrite H; [reflexivity|].
  cbn. auto.
Defined.

Lemma remap_order_checked :
  forallb (fun preset =>
    remap_order_check (negb (String.eqb (name preset) "Vintage Film"))
      (contrast_factor (contrast preset))
    && (if String.eqb (name preset) "Vintage Film"
        then (0 <? contrast_factor (contrast preset))%float
        else (contrast_factor (contrast preset) <? 0)%float))
    filterPresets = true.
Proof. vm_compute. reflexivity. Qed.

(** X11: Auto Enhance, Golden Hour and Cool Studio have a contrast
    above 259/255 and so a negative contrast factor: their remap reverses
    the order of any two byte values.  Vintage Film has a positive factor
    and its remap keeps the order. *)
Theorem catalog_remap_order preset (u v : Z) :
  In preset filterPresets ->
  0 <= u -> u < v -> v <= 255 ->
  let factor := contrast_factor (contrast preset) in
  if String.eqb (name preset) "Vintage Film"
  then (0 <? factor)%float = true /\
       (remap_byte factor u <? remap_byte factor v)%float = true
  else (factor <? 0)%float = true /\
       (remap_byte factor v <? remap_byte factor u)%float = true.
Proof.
  intros Hin Hu Huv Hv factor.
  pose proof remap_order_checked as Hall.
  rewrite forallb_forall in Hall. specialize (Hall preset Hin).
  apply andb_prop in Hall as [Horder Hsign]. fold factor in Horder, Hsign.
  unfold remap_order_check in Horder.
  pose proof (NumberFacts.forall_bytes _ Horder u ltac:(lia)) as Hrow.
  pose proof (NumberFacts.forall_bytes _ Hrow v ltac:(lia)) as Hcell.
  cbn beta in Hcell.
  rewrite (proj2 (Z.ltb_lt u v) Huv) in Hcell.
  destruct (String.eqb (name preset) "Vintage Film"); cbn in Hcell;
    split; assumption.
Qed.

Lemma catalog_remap_order_witness :
  let factor := contrast_factor (contrast Inputs.auto_enhance) in
  (factor <? 0)%float = true /\
  (remap_byte factor 200 <? remap_byte factor 100)%float = true.
Proof.
  apply (catalog_remap_order Inputs.auto_enhance 100 200);
    [now left|lia|lia|lia].
Defined.

(** ** The component *)

Lemma UI_step_idle toDataURL honour st e :
  UI.idle st -> UI.idle (UI.step toDataURL honour st e).
Proof.
  intros (Hs & Hp & Hc & Hi & Hm & Ht & Hr & Hd).
  destruct e as [result image ctx|ctx| | |image ctx| |value|value];
    cbn [UI.step].
  - unfold UI.handleFileChange_onload. rewrite Hc.
    destruct (UI.truthy result); repeat split; assumption.
  - unfold UI.handleProcess. rewrite Hc.
    destruct (honour && UI.process_disabled st); repeat split; assumption.
  - unfold UI.handleProcess_timeout. rewrite Ht.
    repeat split; assumption.
  - unfold UI.handleReset. rewrite Hs. cbn.
    destruct (honour && UI.reset_disabled st); repeat split; assumption.
  - unfold UI.handleReset_onload. rewrite Hr. repeat split; assumption.
  - unfold UI.handleDownload. rewrite Hp.
    destruct (honour && UI.download_disabled st); repeat split; assumption.
  - unfold UI.setPresetName, UI.render, UI.idle. cbn. rewrite Hs. cbn.
    repeat split; assumption.
  - unfold UI.setPrompt, UI.render, UI.idle. cbn. rewrite Hs. cbn.
    repeat split; assumption.
Qed.

(** X12: the canvas is in the page only once [sourceUrl] is set, and
    [sourceUrl] is set only by the [onload] callback of an upload, which
    returns at once when the canvas is not in the page.  So from the first
    render on, whatever files are chosen and whatever is clicked, selected
    or typed, no image is ever loaded: [sourceUrl], [processedUrl] and the
    canvas stay [null], the status stays "Upload an image to begin.", no
    processing starts and nothing is downloaded. *)
Theorem UI_never_loads toDataURL honour (events : list UI.Event) :
  UI.idle (UI.run toDataURL honour UI.initial events).
Proof.
  unfold UI.run.
  assert (Hinit : UI.idle UI.initial) by (repeat split).
  revert Hinit. generalize UI.initial.
  induction events as [|e events IH]; intros st Hst; cbn [fold_left].
  - exact Hst.
  - apply IH. now apply UI_step_idle.
Qed.
